(** * go-xslt: the C core [xslt.c] over an abstract libxml2/libxslt engine

    The file [xslt.c] is glue code: it calls the parsing and transform
    engine (libxml2, libxslt) and manages the objects those calls allocate.
    The embedding below keeps that shape.  The engine is a record of pure
    oracles; the process state is a heap of engine objects together with the
    process-wide "last error" slot; every C function is a computation in a
    state monad whose failure ([None]) stands for undefined behaviour. *)

From Stdlib Require Import ZArith List Lia.
From Stdlib.Strings Require Import Byte.
From stdpp Require Import gmap list.

Local Open Scope Z_scope.

(** ** Machine integers *)

Definition INT32_MAX : Z := 2147483647.
Definition INT32_MIN : Z := -2147483648.

(** [(int)z]: conversion of a [size_t] value to a 32-bit [int], by
    wrap-around. *)
Definition to_int (z : Z) : Z := (z + 2147483648) mod 4294967296 - 2147483648.

(** Signed [int] arithmetic: a result outside the range of [int] is
    undefined behaviour. *)
Definition int_range (z : Z) : bool := (INT32_MIN <=? z) && (z <=? INT32_MAX).
Definition int_checked (z : Z) : option Z := if int_range z then Some z else None.
Definition int_mul (a b : Z) : option Z := int_checked (a * b).
Definition int_add (a b : Z) : option Z := int_checked (a + b).

(** ** Strings and pointers *)

(** A C string is given by the bytes that precede its terminating NUL. *)
Definition cstring := list byte.

Definition strlen (s : cstring) : Z := Z.of_nat (length s).

(** The bytes of a buffer up to (excluding) its first NUL. *)
Fixpoint until_nul (bs : list byte) : list byte :=
  match bs with
  | [] => []
  | b :: bs' => if Byte.eqb b x00 then [] else b :: until_nul bs'
  end.

(** The [n] bytes that [strncpy(dst, src, n)] stores: the characters of the
    string at [src], at most [n] of them, then NUL bytes up to [n]. *)
Definition strncpy_bytes (src : list byte) (n : nat) : list byte :=
  let s := take n (until_nul src) in
  s ++ replicate (n - length s) x00.

Definition loc := positive.

(** A pointer is [None] (the C [NULL]) or the address of an object. *)
Definition ptr := option loc.

(** ** The engine *)

(** An error record of libxml2, identified by its code. *)
Definition xmlError := Z.

(** The calls [xslt.c] makes into the engine, as oracles on the contents of
    their arguments.  Each answer comes with the error the call registers in
    the process-wide slot read by [xmlGetLastError], if it registers one.
    - [parse_text buffer size]: the document tree, or none ([NULL]).
    - [compile_tree doc]: the stylesheet and the value of its [errors]
      field, or none.
    - [transform_tree style doc params]: the result tree, or none.
    - [serialize_tree result style]: the returned status and the buffer
      stored in [*doc_txt_ptr] (none is [NULL]); the length stored in
      [*doc_txt_len] is the number of bytes of that buffer, 0 for [NULL]. *)
Record Engine := {
  tree : Type;
  program : Type;
  parse_text : list byte -> Z -> option tree * option xmlError;
  compile_tree : tree -> option (program * Z) * option xmlError;
  transform_tree :
    program -> tree -> list (option cstring) -> option tree * option xmlError;
  serialize_tree : tree -> program -> Z * option (list byte) * option xmlError
}.

(** An engine that gives the same four answers whatever it is asked. *)
Definition scripted
    (p : option unit * option xmlError)
    (c : option (unit * Z) * option xmlError)
    (a : option unit * option xmlError)
    (s : Z * option (list byte) * option xmlError) : Engine :=
  {| tree := unit;
     program := unit;
     parse_text := fun _ _ => p;
     compile_tree := fun _ => c;
     transform_tree := fun _ _ _ => a;
     serialize_tree := fun _ _ => s |}.

(** ** The process state *)

Inductive obj (E : Engine) : Type :=
| ODoc (t : tree E)
    (* an [xmlDoc] *)
| OStyle (doc : loc) (errors : Z) (p : program E)
    (* an [xsltStylesheet], which owns the document it was compiled from *)
| OXmlBuf (bs : list byte)
    (* an [xmlChar] buffer of the engine: [bs] followed by a NUL *)
| OBuf (bs : list (option byte)).
    (* a [malloc] block; [None] is a byte never written *)

Arguments ODoc {E} t.
Arguments OStyle {E} doc errors p.
Arguments OXmlBuf {E} bs.
Arguments OBuf {E} bs.

(** The calls made so far into the parser, the compiler, the transform and
    the serializer, and the frees of their objects (a ghost log, oldest
    first). *)
Inductive call : Type :=
| CallParse (buffer : list byte) (size : Z)
| CallCompile (doc : loc)
| CallApply (style : ptr) (doc : loc)
| CallSave (result : loc) (style : ptr)
| CallFreeDoc (doc : ptr)
| CallFreeStylesheet (style : ptr)
| CallResetLastError.

Record world (E : Engine) : Type := World {
  heap : gmap loc (obj E);
  last_error : option xmlError;
  calls : list call
}.

Arguments World {E} heap last_error calls.
Arguments heap {E} w.
Arguments last_error {E} w.
Arguments calls {E} w.

Definition empty_world (E : Engine) : world E :=
  World ∅ None [].

(** What a call stored through the output pointers [xml_txt] and
    [xml_txt_len]: [None] when nothing was stored through the pointer. *)
Record outputs : Type := Outputs {
  out_txt : option ptr;
  out_len : option Z
}.

Definition no_output : outputs := Outputs None None.

(** ** The monad: state, with undefined behaviour as [None] *)

Definition M (E : Engine) (A : Type) : Type := world E -> option (A * world E).

Global Instance M_ret {E} : MRet (M E) :=
  fun A (a : A) w => Some (a, w).

Global Instance M_bind {E} : MBind (M E) :=
  fun A B (k : A -> M E B) (c : M E A) w =>
    match c w with
    | Some (a, w') => k a w'
    | None => None
    end.

Definition undefined {E A} : M E A := fun _ => None.

Section Primitives.
Context {E : Engine}.

Definition log (c : call) : M E unit :=
  fun w => Some (tt, World (heap w) (last_error w) (calls w ++ [c])).

(** Registering an error overwrites the slot; otherwise the slot keeps
    what it held. *)
Definition register (e old : option xmlError) : option xmlError :=
  match e with Some _ => e | None => old end.

Definition raise (e : option xmlError) : M E unit :=
  fun w => Some (tt, World (heap w) (register e (last_error w)) (calls w)).

(** An address no live object has. *)
Definition fresh_loc (h : gmap loc (obj E)) : loc := fresh (dom h).

Definition alloc (o : obj E) : M E loc :=
  fun w => let l := fresh_loc (heap w) in
           Some (l, World (<[l := o]> (heap w)) (last_error w) (calls w)).

Definition load (l : loc) : M E (obj E) :=
  fun w => match heap w !! l with
           | Some o => Some (o, w)
           | None => None
           end.

Definition store (l : loc) (o : obj E) : M E unit :=
  fun w => Some (tt, World (<[l := o]> (heap w)) (last_error w) (calls w)).

Definition dealloc (l : loc) : M E unit :=
  fun w => Some (tt, World (delete l (heap w)) (last_error w) (calls w)).

Definition xmlGetLastError : M E (option xmlError) :=
  fun w => Some (last_error w, w).

Definition clear_last_error : M E unit :=
  fun w => Some (tt, World (heap w) None (calls w)).

Definition xmlResetLastError : M E unit :=
  log CallResetLastError ;; clear_last_error.

Definition xmlParseMemory (buffer : list byte) (size : Z) : M E ptr :=
  log (CallParse buffer size) ;;
  let '(t, e) := parse_text E buffer size in
  raise e ;;
  match t with
  | None => mret None
  | Some t => l ← alloc (ODoc t); mret (Some l)
  end.

(** [xmlFreeDoc(NULL)] does nothing; freeing anything but a live document
    is undefined. *)
Definition xmlFreeDoc (d : ptr) : M E unit :=
  log (CallFreeDoc d) ;;
  match d with
  | None => mret tt
  | Some l =>
      o ← load l;
      match o with
      | ODoc _ => dealloc l
      | _ => undefined
      end
  end.

Definition load_doc (l : loc) : M E (tree E) :=
  o ← load l;
  match o with
  | ODoc t => mret t
  | _ => undefined
  end.

Definition load_style (s : ptr) : M E (loc * Z * program E) :=
  match s with
  | None => undefined
  | Some l =>
      o ← load l;
      match o with
      | OStyle d n p => mret (d, n, p)
      | _ => undefined
      end
  end.

(** On success the stylesheet takes the document over; on failure the
    document stays with the caller. *)
Definition xsltParseStylesheetDoc (doc : loc) : M E ptr :=
  log (CallCompile doc) ;;
  t ← load_doc doc;
  let '(r, e) := compile_tree E t in
  raise e ;;
  match r with
  | None => mret None
  | Some (p, n) => l ← alloc (OStyle doc n p); mret (Some l)
  end.

(** The [errors] field of the stylesheet at [s]. *)
Definition style_errors (s : ptr) : M E Z :=
  '(_, n, _) ← load_style s; mret n.

Definition xsltApplyStylesheet
    (style : ptr) (doc : loc) (params : list (option cstring)) : M E ptr :=
  log (CallApply style doc) ;;
  '(_, _, p) ← load_style style;
  t ← load_doc doc;
  let '(r, e) := transform_tree E p t params in
  raise e ;;
  match r with
  | None => mret None
  | Some t' => l ← alloc (ODoc t'); mret (Some l)
  end.

(** Returns the status, the pointer stored in [*doc_txt_ptr] and the
    length stored in [*doc_txt_len]. *)
Definition xsltSaveResultToString
    (result : loc) (style : ptr) : M E (Z * ptr * Z) :=
  log (CallSave result style) ;;
  t ← load_doc result;
  '(_, _, p) ← load_style style;
  let '(status, out, e) := serialize_tree E t p in
  raise e ;;
  match out with
  | None => mret (status, None, 0)
  | Some bs => l ← alloc (OXmlBuf bs); mret (status, Some l, strlen bs)
  end.

(** [xsltFreeStylesheet] frees the stylesheet and the document it owns;
    [xsltFreeStylesheet(NULL)] does nothing.  A stylesheet whose document
    was freed already makes it free that document twice, which is
    undefined. *)
Definition xsltFreeStylesheet (s : ptr) : M E unit :=
  log (CallFreeStylesheet s) ;;
  match s with
  | None => mret tt
  | Some l =>
      '(d, _, _) ← load_style s;
      _ ← load_doc d;
      dealloc l ;;
      dealloc d
  end.

(** A fresh block of [n] bytes, none of them written. *)
Definition malloc (n : Z) : M E ptr :=
  l ← alloc (OBuf (replicate (Z.to_nat n) None)); mret (Some l).

(** [strncpy(dst, src, n)]: [src] must be a NUL-terminated buffer and
    [dst] a block of at least [n] bytes. *)
Definition strncpy (dst src : ptr) (n : Z) : M E unit :=
  match dst, src with
  | Some d, Some s =>
      od ← load d;
      os ← load s;
      match od, os with
      | OBuf old, OXmlBuf bs =>
          if (Z.to_nat n <=? length old)%nat
          then store d (OBuf ((Some <$> strncpy_bytes bs (Z.to_nat n))
                               ++ drop (Z.to_nat n) old))
          else undefined
      | _, _ => undefined
      end
  | _, _ => undefined
  end.

Definition xmlFree (p : ptr) : M E unit :=
  match p with
  | None => mret tt
  | Some l =>
      o ← load l;
      match o with
      | OXmlBuf _ => dealloc l
      | _ => undefined
      end
  end.

End Primitives.

(** ** The functions of [xslt.c] *)

Section Functions.
Context {E : Engine}.

(** [apply_style]: returns the [int] result and what was stored through
    [xml_txt] and [xml_txt_len].  The serializer stores the length through
    [xml_txt_len] cast to [int *]; the cell is then read as a [size_t], and
    the model takes that read to give the length the serializer reported
    (as it does when the rest of the cell is zero).  [malloc] is taken to
    succeed.  [apply_style_at] below is the function without the two
    idealisations. *)
Definition apply_style
    (style : ptr) (xml : cstring) (params : list (option cstring))
    : M E (Z * outputs) :=
  let len := strlen xml in
  if INT32_MAX <? len then mret (-1, no_output)
  else
    xml_doc ← xmlParseMemory xml (to_int (strlen xml));
    err ← xmlGetLastError;
    match xml_doc, err with
    | Some doc, None =>
        result ← xsltApplyStylesheet style doc params;
        match result with
        | None => xmlFreeDoc xml_doc;; mret (-1, no_output)
        | Some res =>
            '(ok, xml_output, txt_len) ← xsltSaveResultToString res style;
            stored ← (if (ok =? 0) && (0 <? txt_len) then
                        buf ← malloc txt_len;
                        strncpy buf xml_output txt_len;;
                        xmlFree xml_output;;
                        mret (Some buf)
                      else mret None);
            xmlFreeDoc xml_doc;;
            xmlFreeDoc result;;
            mret (ok, Outputs stored (Some txt_len))
        end
    | _, _ => xmlResetLastError;; mret (-1, no_output)
    end.

(** [free_style] *)
Definition free_style (style : ptr) : M E unit :=
  xsltFreeStylesheet style.

(** [make_style]: returns the [int] result and what was stored through
    [style], [None] when nothing was. *)
Definition make_style (xsl : cstring) : M E (Z * option ptr) :=
  let len := strlen xsl in
  if INT32_MAX <? len then mret (-1, None)
  else
    style_doc ← xmlParseMemory xsl (to_int len);
    err ← xmlGetLastError;
    match style_doc, err with
    | Some doc, None =>
        style ← xsltParseStylesheetDoc doc;
        bad ← match style with
              | None => mret true
              | Some _ => n ← style_errors style; mret (negb (n =? 0))
              end;
        if (bad : bool) then
          xmlFreeDoc style_doc;; mret (-1, Some style)
        else mret (0, Some style)
    | _, _ => xmlResetLastError;; mret (-1, None)
    end.

(** [xslt]: the local [style] is read only after [make_style] stored it;
    reading it unset would be undefined. *)
Definition xslt
    (xsl xml : cstring) (params : list (option cstring))
    : M E (Z * outputs) :=
  '(ok, stored) ← make_style xsl;
  if ok <? 0 then mret (-1, no_output)
  else
    match stored with
    | None => undefined
    | Some style =>
        '(ok, out) ← apply_style style xml params;
        free_style style;;
        mret (ok, out)
    end.

End Functions.

(** ** The output step and its environment

    [apply_style] above idealises two things that the code leaves to its
    environment.  The serializer stores the length as an [int] through
    [xml_txt_len] cast to [int *], and the code then reads the whole
    [size_t] back: where a [size_t] has 64 bits and an [int] 32, least
    significant byte first, the store replaces the low half of the cell and
    the read returns it together with the high half that the caller left
    there.  And [malloc] may return [NULL], which the code passes to
    [strncpy] unchecked.  [apply_style_at cell granted] and
    [xslt_at cell granted] are the two functions with both made explicit:
    [cell] is the [size_t] at [xml_txt_len] on entry, [granted] tells
    whether [malloc] returns a block. *)

(** The [size_t] read from a cell that held [cell], after the [int] [v] was
    stored at its address. *)
Definition store_int_in_size_t (cell v : Z) : Z :=
  (cell / 4294967296) * 4294967296 + v mod 4294967296.

(** The serializer reports the length of its text as an [int]. *)
Definition int_lengths (E : Engine) : Prop :=
  forall t p status bs e,
    serialize_tree E t p = (status, Some bs, e) -> strlen bs <= INT32_MAX.

Section Environment.
Context {E : Engine}.

(** [malloc(n)]: a fresh block, or [NULL]. *)
Definition malloc_at (granted : bool) (n : Z) : M E ptr :=
  if granted then malloc n else mret None.

Definition apply_style_at
    (cell : Z) (granted : bool)
    (style : ptr) (xml : cstring) (params : list (option cstring))
    : M E (Z * outputs) :=
  let len := strlen xml in
  if INT32_MAX <? len then mret (-1, no_output)
  else
    xml_doc ← xmlParseMemory xml (to_int (strlen xml));
    err ← xmlGetLastError;
    match xml_doc, err with
    | Some doc, None =>
        result ← xsltApplyStylesheet style doc params;
        match result with
        | None => xmlFreeDoc xml_doc;; mret (-1, no_output)
        | Some res =>
            '(ok, xml_output, written) ← xsltSaveResultToString res style;
            let txt_len := store_int_in_size_t cell written in
            stored ← (if (ok =? 0) && (0 <? txt_len) then
                        buf ← malloc_at granted txt_len;
                        strncpy buf xml_output txt_len;;
                        xmlFree xml_output;;
                        mret (Some buf)
                      else mret None);
            xmlFreeDoc xml_doc;;
            xmlFreeDoc result;;
            mret (ok, Outputs stored (Some txt_len))
        end
    | _, _ => xmlResetLastError;; mret (-1, no_output)
    end.

Definition xslt_at
    (cell : Z) (granted : bool)
    (xsl xml : cstring) (params : list (option cstring))
    : M E (Z * outputs) :=
  '(ok, stored) ← make_style xsl;
  if ok <? 0 then mret (-1, no_output)
  else
    match stored with
    | None => undefined
    | Some style =>
        '(ok, out) ← apply_style_at cell granted style xml params;
        free_style style;;
        mret (ok, out)
    end.

End Environment.

(** ** Parameter arrays *)

(** A slot of a parameter array: [None] is [NULL], [Some s] points to the
    string [s]. *)
Definition slot := option cstring.

(** [calloc(sizeof(char * ), n)] with [n] an [int]: [n] slots, all zero, or
    [NULL] (here [None]).  Whether the allocator meets the request is its
    own decision, the argument [granted].  A negative [n] converts to a
    [size_t] whose product with the size of a pointer no allocator can
    meet: the call returns [NULL] whatever [granted] is. *)
Definition calloc (granted : bool) (n : Z) : option (list slot) :=
  if granted && (0 <=? n) then Some (replicate (Z.to_nat n) None) else None.

(** [a[i] = v]; a store outside the array is undefined. *)
Definition array_store (a : list slot) (i : Z) (v : slot) : option (list slot) :=
  if (0 <=? i) && (i <? Z.of_nat (length a))
  then Some (<[Z.to_nat i := v]> a)
  else None.

(** The result of [calloc] is not checked: when it is [NULL], the store of
    the sentinel goes through a null pointer, which is undefined. *)
Definition make_param_array (granted : bool) (num_tuples : Z)
    : option (list slot) :=
  n2 ← int_mul 2 num_tuples;
  n ← int_add n2 1;
  match calloc granted n with
  | None => None
  | Some a => array_store a n2 None
  end.

Definition set_param (a : list slot) (n v : slot) (t : Z) : option (list slot) :=
  i ← int_mul 2 t;
  a1 ← array_store a i n;
  j ← int_add i 1;
  array_store a1 j v.

(** A sequence of [set_param] calls, first to last. *)
Fixpoint set_params (a : list slot) (l : list (Z * slot * slot))
    : option (list slot) :=
  match l with
  | [] => Some a
  | (t, n, v) :: l' => a' ← set_param a n v t; set_params a' l'
  end.

(** ** The exit paths, as relations

    [apply_style_run] and [make_style_run] list the ways the two functions
    return, with what each leaves behind.  They are read off the code path
    by path; [apply_style_runs] and [make_style_runs] below prove that the
    code returns along one of them. *)

Section Runs.
Context {E : Engine}.

(** [extended h o h']: [h'] is [h], with the object [o] (if any) added at an
    address that was free in [h]. *)
Definition extended
    (h : gmap loc (obj E)) (o : option (obj E)) (h' : gmap loc (obj E)) : Prop :=
  match o with
  | None => h' = h
  | Some o => exists l, h !! l = None /\ h' = <[l := o]> h
  end.

(** The calls logged between [w] and [w'] start with [c]. *)
Definition first_call (w w' : world E) (c : call) : Prop :=
  exists tr, calls w' = calls w ++ c :: tr.

(** The bytes of the block the output pointer was set to. *)
Definition output_bytes (w : world E) (out : outputs) : option (list (option byte)) :=
  match out_txt out with
  | Some (Some l) =>
      match heap w !! l with
      | Some (OBuf bs) => Some bs
      | _ => None
      end
  | _ => None
  end.

Inductive apply_style_run
    (p : program E) (xml : cstring) (params : list (option cstring))
    (w : world E) : Z -> outputs -> world E -> Prop :=
| ApplyTooLong :
    INT32_MAX < strlen xml ->
    apply_style_run p xml params w (-1) no_output w
| ApplyParseFailed t e w' :
    strlen xml <= INT32_MAX ->
    parse_text E xml (strlen xml) = (t, e) ->
    t = None \/ register e (last_error w) <> None ->
    extended (heap w) (ODoc <$> t) (heap w') ->
    last_error w' = None ->
    first_call w w' (CallParse xml (strlen xml)) ->
    apply_style_run p xml params w (-1) no_output w'
| ApplyNoResult t ea w' :
    strlen xml <= INT32_MAX ->
    parse_text E xml (strlen xml) = (Some t, None) ->
    last_error w = None ->
    transform_tree E p t params = (None, ea) ->
    heap w' = heap w ->
    last_error w' = ea ->
    first_call w w' (CallParse xml (strlen xml)) ->
    apply_style_run p xml params w (-1) no_output w'
| ApplyNoBuffer t ea r st out e w' :
    strlen xml <= INT32_MAX ->
    parse_text E xml (strlen xml) = (Some t, None) ->
    last_error w = None ->
    transform_tree E p t params = (Some r, ea) ->
    serialize_tree E r p = (st, out, e) ->
    st <> 0 \/ from_option strlen 0 out = 0 ->
    extended (heap w) (OXmlBuf <$> out) (heap w') ->
    last_error w' = register e ea ->
    first_call w w' (CallParse xml (strlen xml)) ->
    apply_style_run p xml params w
      st (Outputs None (Some (from_option strlen 0 out))) w'
| ApplyOutput t ea r bs e l w' :
    strlen xml <= INT32_MAX ->
    parse_text E xml (strlen xml) = (Some t, None) ->
    last_error w = None ->
    transform_tree E p t params = (Some r, ea) ->
    serialize_tree E r p = (0, Some bs, e) ->
    0 < strlen bs ->
    heap w !! l = None ->
    heap w' = <[l := OBuf (Some <$> strncpy_bytes bs (length bs))]> (heap w) ->
    last_error w' = register e ea ->
    first_call w w' (CallParse xml (strlen xml)) ->
    apply_style_run p xml params w
      0 (Outputs (Some (Some l)) (Some (strlen bs))) w'.

Inductive make_style_run (xsl : cstring) (w : world E)
    : Z -> option ptr -> world E -> Prop :=
| MakeTooLong :
    INT32_MAX < strlen xsl ->
    make_style_run xsl w (-1) None w
| MakeParseFailed t e w' :
    strlen xsl <= INT32_MAX ->
    parse_text E xsl (strlen xsl) = (t, e) ->
    t = None \/ register e (last_error w) <> None ->
    extended (heap w) (ODoc <$> t) (heap w') ->
    last_error w' = None ->
    first_call w w' (CallParse xsl (strlen xsl)) ->
    make_style_run xsl w (-1) None w'
| MakeNoProgram t e w' :
    strlen xsl <= INT32_MAX ->
    parse_text E xsl (strlen xsl) = (Some t, None) ->
    last_error w = None ->
    compile_tree E t = (None, e) ->
    heap w' = heap w ->
    last_error w' = e ->
    first_call w w' (CallParse xsl (strlen xsl)) ->
    make_style_run xsl w (-1) (Some None) w'
| MakeErrors t p n e d s w' :
    strlen xsl <= INT32_MAX ->
    parse_text E xsl (strlen xsl) = (Some t, None) ->
    last_error w = None ->
    compile_tree E t = (Some (p, n), e) ->
    n <> 0 ->
    heap w !! d = None ->
    heap w !! s = None ->
    s <> d ->
    heap w' = <[s := OStyle d n p]> (heap w) ->
    last_error w' = e ->
    first_call w w' (CallParse xsl (strlen xsl)) ->
    make_style_run xsl w (-1) (Some (Some s)) w'
| MakeOk t p e d s w' :
    strlen xsl <= INT32_MAX ->
    parse_text E xsl (strlen xsl) = (Some t, None) ->
    last_error w = None ->
    compile_tree E t = (Some (p, 0), e) ->
    heap w !! d = None ->
    heap w !! s = None ->
    s <> d ->
    heap w' = <[s := OStyle d 0 p]> (<[d := ODoc t]> (heap w)) ->
    last_error w' = e ->
    first_call w w' (CallParse xsl (strlen xsl)) ->
    make_style_run xsl w 0 (Some (Some s)) w'.

End Runs.

(** The slots a sequence of [set_param] calls stores to. *)
Definition touched (l : list (Z * slot * slot)) (i : nat) : Prop :=
  Exists (fun '(t, _, _) => i = Z.to_nat (2 * t) \/ i = Z.to_nat (2 * t + 1)) l.

(** ** Concrete engines and states *)

(** The text [<a>hi</a>]. *)
Definition sample_xml : cstring :=
  [x3c; x61; x3e; x68; x69; x3c; x2f; x61; x3e].

(** The text [<out>hi</out>]. *)
Definition sample_output : list byte :=
  [x3c; x6f; x75; x74; x3e; x68; x69; x3c; x2f; x6f; x75; x74; x3e].

(** The text [<a/>] in UTF-16 (little endian, with its byte order mark),
    as a stylesheet with [encoding="UTF-16"] makes the serializer write
    it. *)
Definition utf16_output : list byte :=
  [xff; xfe; x3c; x00; x61; x00; x2f; x00; x3e; x00].

(** Every step succeeds and registers nothing. *)
Definition plain_engine : Engine :=
  scripted (Some tt, None) (Some (tt, 0), None) (Some tt, None)
           (0, Some sample_output, None).

(** Compilation returns a stylesheet whose [errors] field is 1. *)
Definition errors_engine : Engine :=
  scripted (Some tt, None) (Some (tt, 1), None) (Some tt, None)
           (0, Some sample_output, None).

(** Compilation as in [errors_engine], registering the error of an XPath
    expression that does not compile (code 1207). *)
Definition xpath_error_engine : Engine :=
  scripted (Some tt, None) (Some (tt, 1), Some 1207) (Some tt, None)
           (0, Some sample_output, None).

(** The parser returns a tree and registers an error, as libxml2 does for
    an undeclared namespace prefix (code 201). *)
Definition namespace_engine : Engine :=
  scripted (Some tt, Some 201) (Some (tt, 0), None) (Some tt, None)
           (0, Some sample_output, None).

(** The transform returns a result and registers an error on the way, as
    for a document that could not be loaded (code 1549). *)
Definition warning_engine : Engine :=
  scripted (Some tt, None) (Some (tt, 0), None) (Some tt, Some 1549)
           (0, Some sample_output, None).

(** The serializer fails with status -1 after writing some bytes. *)
Definition save_failure_engine : Engine :=
  scripted (Some tt, None) (Some (tt, 0), None) (Some tt, None)
           (-1, Some [x3c; x6f], None).

(** The serializer writes UTF-16. *)
Definition utf16_engine : Engine :=
  scripted (Some tt, None) (Some (tt, 0), None) (Some tt, None)
           (0, Some utf16_output, None).

(** A state in which a compiled stylesheet lives at address 2 (and the
    document it owns at address 1), with [pending] in the error slot. *)
Definition compiled (E : Engine) (t : tree E) (p : program E)
    (pending : option xmlError) : world E :=
  World (<[2%positive := OStyle 1%positive 0 p]>
           (<[1%positive := ODoc t]> ∅))
        pending [].

Definition text_over_limit : cstring := replicate (Z.to_nat (INT32_MAX + 1)) x61.

(** ** Filling and freeing a parameter array *)

(** The calls that fill an array with [pairs], tuple [i] first. *)
Fixpoint numbered (i : Z) (pairs : list (slot * slot)) : list (Z * slot * slot) :=
  match pairs with
  | [] => []
  | (nm, v) :: pairs' => (i, nm, v) :: numbered (i + 1) pairs'
  end.

(** The names and values of [pairs] one after the other, then [NULL]. *)
Definition flattened (pairs : list (slot * slot)) : list slot :=
  flat_map (fun '(nm, v) => [nm; v]) pairs ++ [None].

(** Freeing needs the addresses that the arrays above forget: here a block
    of memory is a string or an array of pointers. *)
Inductive block : Type :=
| BString (s : cstring)
| BArray (slots : list ptr).

(** [free(p)]: nothing for [NULL]; undefined for an address that is not
    allocated (a second free). *)
Definition free (p : ptr) (m : gmap loc block) : option (gmap loc block) :=
  match p with
  | None => Some m
  | Some l =>
      match m !! l with
      | Some _ => Some (delete l m)
      | None => None
      end
  end.

(** [a[i]], undefined unless [a] is an allocated array and [i] is in it. *)
Definition read_slot (a : ptr) (i : Z) (m : gmap loc block) : option ptr :=
  match a with
  | None => None
  | Some l =>
      match m !! l with
      | Some (BArray slots) =>
          if 0 <=? i then slots !! Z.to_nat i else None
      | _ => None
      end
  end.

(** [count] rounds of the loop [for (...; i++) free(a[i])], from [i] on. *)
Fixpoint free_slots (a : ptr) (i : Z) (count : nat) (m : gmap loc block)
    : option (gmap loc block) :=
  match count with
  | O => Some m
  | S count' =>
      p ← read_slot a i m;
      m' ← free p m;
      free_slots a (i + 1) count' m'
  end.

(** [free_param_array]: the loop runs while [i < 2 * num_tuples], that is
    [2 * num_tuples] times from 0 (not at all for a negative bound); [i]
    stays below the bound, so [i++] does not overflow. *)
Definition free_param_array (a : ptr) (num_tuples : Z) (m : gmap loc block)
    : option (gmap loc block) :=
  n2 ← int_mul 2 num_tuples;
  m' ← free_slots a 0 (Z.to_nat n2) m;
  free a m'.

(** The pointers, other than [NULL], in the first [k] slots. *)
Definition pointers (k : nat) (slots : list ptr) : list loc :=
  omap id (take k slots).

(** The compiler returns no stylesheet. *)
Definition no_program_engine : Engine :=
  scripted (Some tt, None) (None, None) (Some tt, None)
           (0, Some sample_output, None).

(** The transform returns no result tree. *)
Definition no_result_engine : Engine :=
  scripted (Some tt, None) (Some (tt, 0), None) (None, None)
           (0, Some sample_output, None).

(** The compiler returns a stylesheet without errors and registers an
    error on the way (code 1207). *)
Definition message_engine : Engine :=
  scripted (Some tt, None) (Some (tt, 0), Some 1207) (Some tt, None)
           (0, Some sample_output, None).

(** The result tree is empty: the serializer succeeds, writes length 0 and
    returns no buffer. *)
Definition empty_result_engine : Engine :=
  scripted (Some tt, None) (Some (tt, 0), None) (Some tt, None)
           (0, None, None).

(** A memory holding, at address 1, the array of one tuple whose name (at
    address 2) is [a] and whose value (at address 3) is [1]. *)
Definition sample_memory : gmap loc block :=
  <[1%positive := BArray [Some 2%positive; Some 3%positive; None]]>
    (<[2%positive := BString [x61]]>
       (<[3%positive := BString [x31]]> ∅)).

(** The same array with the name installed in both slots. *)
Definition aliased_memory : gmap loc block :=
  <[1%positive := BArray [Some 2%positive; Some 2%positive; None]]>
    (<[2%positive := BString [x61]]> ∅).

(** The parser rejects the empty text (no tree, error 4) and accepts any
    other; every later step succeeds. *)
Definition checking_engine : Engine :=
  {| tree := unit;
     program := unit;
     parse_text := fun buffer _ =>
       match buffer with
       | [] => (None, Some 4)
       | _ :: _ => (Some tt, None)
       end;
     compile_tree := fun _ => (Some (tt, 0), None);
     transform_tree := fun _ _ _ => (Some tt, None);
     serialize_tree := fun _ _ => (0, Some sample_output, None) |}.

(** * Properties *)

Section Facts.
Context {E : Engine}.
Implicit Types (w : world E) (h : gmap loc (obj E)).

(** ** Arithmetic of the length check *)

Lemma to_int_small z : 0 <= z <= INT32_MAX -> to_int z = z.
Proof.
  unfold to_int, INT32_MAX. intros H.
  rewrite Z.mod_small by lia. lia.
Qed.

Lemma strlen_nonneg (s : cstring) : 0 <= strlen s.
Proof. unfold strlen. lia. Qed.

Lemma to_int_strlen (s : cstring) :
  strlen s <= INT32_MAX -> to_int (strlen s) = strlen s.
Proof. intros H. apply to_int_small. pose proof (strlen_nonneg s). lia. Qed.

Lemma length_check_passes (s : cstring) :
  strlen s <= INT32_MAX -> (INT32_MAX <? strlen s) = false.
Proof. intros H. apply Z.ltb_ge. lia. Qed.

Lemma length_check_rejects (s : cstring) :
  INT32_MAX < strlen s -> (INT32_MAX <? strlen s) = true.
Proof. intros H. by apply Z.ltb_lt. Qed.

Lemma register_None_r (e : option xmlError) : register e None = e.
Proof. by destruct e. Qed.

(** ** The heap *)

Lemma fresh_loc_None h : h !! fresh_loc h = None.
Proof. apply not_elem_of_dom, is_fresh. Qed.

Lemma lookup_alloc_new h o : <[fresh_loc h := o]> h !! fresh_loc h = Some o.
Proof. apply lookup_insert_eq. Qed.

Lemma lookup_alloc_old h l o o' :
  h !! l = Some o -> <[fresh_loc h := o']> h !! l = Some o.
Proof.
  intros H. rewrite lookup_insert_ne; [done |].
  intros <-. rewrite fresh_loc_None in H. discriminate.
Qed.

(** *** Running a computation step by step *)

Lemma run_bind {A B} (c : M E A) (k : A -> M E B) w a w' :
  c w = Some (a, w') -> (c ≫= k) w = k a w'.
Proof. intros H. unfold mbind, M_bind. by rewrite H. Qed.

Lemma run_assoc {A B C} (c : M E A) (f : A -> M E B) (g : B -> M E C) w :
  ((c ≫= f) ≫= g) w = (c ≫= fun a => f a ≫= g) w.
Proof. unfold mbind, M_bind. by destruct (c w) as [[a w'] |]. Qed.

Lemma run_ret {A} (a : A) w : (mret a : M E A) w = Some (a, w).
Proof. reflexivity. Qed.

Lemma run_xmlGetLastError w : xmlGetLastError w = Some (last_error w, w).
Proof. reflexivity. Qed.

Lemma run_xmlResetLastError w :
  xmlResetLastError w
  = Some (tt, World (heap w) None (calls w ++ [CallResetLastError])).
Proof. reflexivity. Qed.

Lemma run_parse_some b n w t e :
  parse_text E b n = (Some t, e) ->
  xmlParseMemory b n w
  = Some (Some (fresh_loc (heap w)),
          World (<[fresh_loc (heap w) := ODoc t]> (heap w))
                (register e (last_error w))
                (calls w ++ [CallParse b n])).
Proof. intros H. unfold xmlParseMemory. rewrite H. reflexivity. Qed.

Lemma run_parse_none b n w e :
  parse_text E b n = (None, e) ->
  xmlParseMemory b n w
  = Some (None,
          World (heap w) (register e (last_error w))
                (calls w ++ [CallParse b n])).
Proof. intros H. unfold xmlParseMemory. rewrite H. reflexivity. Qed.

Lemma run_xmlFreeDoc w l t :
  heap w !! l = Some (ODoc t) ->
  xmlFreeDoc (Some l) w
  = Some (tt, World (delete l (heap w)) (last_error w)
                    (calls w ++ [CallFreeDoc (Some l)])).
Proof.
  intros H. unfold xmlFreeDoc, load, log, mbind, M_bind. cbn. by rewrite H.
Qed.

Lemma run_compile_some w l t p n e :
  heap w !! l = Some (ODoc t) ->
  compile_tree E t = (Some (p, n), e) ->
  xsltParseStylesheetDoc l w
  = Some (Some (fresh_loc (heap w)),
          World (<[fresh_loc (heap w) := OStyle l n p]> (heap w))
                (register e (last_error w))
                (calls w ++ [CallCompile l])).
Proof.
  intros H Hc.
  unfold xsltParseStylesheetDoc, load_doc, load, log, mbind, M_bind. cbn.
  rewrite H. cbn. rewrite Hc. reflexivity.
Qed.

Lemma run_compile_none w l t e :
  heap w !! l = Some (ODoc t) ->
  compile_tree E t = (None, e) ->
  xsltParseStylesheetDoc l w
  = Some (None,
          World (heap w) (register e (last_error w))
                (calls w ++ [CallCompile l])).
Proof.
  intros H Hc.
  unfold xsltParseStylesheetDoc, load_doc, load, log, mbind, M_bind. cbn.
  rewrite H. cbn. rewrite Hc. reflexivity.
Qed.

Lemma run_style_errors w l d n p :
  heap w !! l = Some (OStyle d n p) ->
  style_errors (Some l) w = Some (n, w).
Proof.
  intros H. unfold style_errors, load_style, load, mbind, M_bind.
  by rewrite H.
Qed.

Lemma run_apply_some w s d n p l t params r e :
  heap w !! s = Some (OStyle d n p) ->
  heap w !! l = Some (ODoc t) ->
  transform_tree E p t params = (Some r, e) ->
  xsltApplyStylesheet (Some s) l params w
  = Some (Some (fresh_loc (heap w)),
          World (<[fresh_loc (heap w) := ODoc r]> (heap w))
                (register e (last_error w))
                (calls w ++ [CallApply (Some s) l])).
Proof.
  intros Hs Hl Ht.
  unfold xsltApplyStylesheet, load_style, load_doc, load, log, mbind, M_bind.
  cbn. rewrite Hs. cbn. rewrite Hl. cbn. rewrite Ht. reflexivity.
Qed.

Lemma run_apply_none w s d n p l t params e :
  heap w !! s = Some (OStyle d n p) ->
  heap w !! l = Some (ODoc t) ->
  transform_tree E p t params = (None, e) ->
  xsltApplyStylesheet (Some s) l params w
  = Some (None,
          World (heap w) (register e (last_error w))
                (calls w ++ [CallApply (Some s) l])).
Proof.
  intros Hs Hl Ht.
  unfold xsltApplyStylesheet, load_style, load_doc, load, log, mbind, M_bind.
  cbn. rewrite Hs. cbn. rewrite Hl. cbn. rewrite Ht. reflexivity.
Qed.

Lemma run_save_some w s d n p l t st bs e :
  heap w !! s = Some (OStyle d n p) ->
  heap w !! l = Some (ODoc t) ->
  serialize_tree E t p = (st, Some bs, e) ->
  xsltSaveResultToString l (Some s) w
  = Some ((st, Some (fresh_loc (heap w)), strlen bs),
          World (<[fresh_loc (heap w) := OXmlBuf bs]> (heap w))
                (register e (last_error w))
                (calls w ++ [CallSave l (Some s)])).
Proof.
  intros Hs Hl Ht.
  unfold xsltSaveResultToString, load_style, load_doc, load, log, mbind,
    M_bind.
  cbn. rewrite Hl. cbn. rewrite Hs. cbn. rewrite Ht. reflexivity.
Qed.

Lemma run_save_none w s d n p l t st e :
  heap w !! s = Some (OStyle d n p) ->
  heap w !! l = Some (ODoc t) ->
  serialize_tree E t p = (st, None, e) ->
  xsltSaveResultToString l (Some s) w
  = Some ((st, None, 0),
          World (heap w) (register e (last_error w))
                (calls w ++ [CallSave l (Some s)])).
Proof.
  intros Hs Hl Ht.
  unfold xsltSaveResultToString, load_style, load_doc, load, log, mbind,
    M_bind.
  cbn. rewrite Hl. cbn. rewrite Hs. cbn. rewrite Ht. reflexivity.
Qed.

Lemma run_malloc w n :
  malloc n w
  = Some (Some (fresh_loc (heap w)),
          World (<[fresh_loc (heap w) := OBuf (replicate (Z.to_nat n) None)]>
                   (heap w))
                (last_error w) (calls w)).
Proof. reflexivity. Qed.

Lemma run_strncpy w d s old bs n :
  heap w !! d = Some (OBuf old) ->
  heap w !! s = Some (OXmlBuf bs) ->
  (Z.to_nat n <= length old)%nat ->
  strncpy (Some d) (Some s) n w
  = Some (tt,
          World (<[d := OBuf ((Some <$> strncpy_bytes bs (Z.to_nat n))
                               ++ drop (Z.to_nat n) old)]> (heap w))
                (last_error w) (calls w)).
Proof.
  intros Hd Hs Hn. unfold strncpy, load, store, mbind, M_bind.
  rewrite Hd, Hs. apply Nat.leb_le in Hn. by rewrite Hn.
Qed.

Lemma run_xmlFree w l bs :
  heap w !! l = Some (OXmlBuf bs) ->
  xmlFree (Some l) w
  = Some (tt, World (delete l (heap w)) (last_error w) (calls w)).
Proof.
  intros H. unfold xmlFree, load, mbind, M_bind. by rewrite H.
Qed.

Lemma run_free_style w l d n p t :
  heap w !! l = Some (OStyle d n p) ->
  heap w !! d = Some (ODoc t) ->
  free_style (Some l) w
  = Some (tt, World (delete d (delete l (heap w))) (last_error w)
                    (calls w ++ [CallFreeStylesheet (Some l)])).
Proof.
  intros H Hd.
  unfold free_style, xsltFreeStylesheet, load_style, load_doc, load, log,
    dealloc, mbind, M_bind.
  cbn. rewrite H. cbn. by rewrite Hd.
Qed.

Lemma fresh_loc_ne h l o : h !! l = Some o -> l <> fresh_loc h.
Proof. intros H ->. rewrite fresh_loc_None in H. discriminate. Qed.

Lemma lookup_dealloc_other h l l' o :
  h !! l = Some o -> l <> l' -> delete l' h !! l = Some o.
Proof. intros H Hne. by rewrite lookup_delete_ne. Qed.

Lemma lookup_store_other h l l' o o' :
  h !! l = Some o -> l <> l' -> <[l' := o']> h !! l = Some o.
Proof. intros H Hne. by rewrite lookup_insert_ne. Qed.

Create HintDb heap.
Hint Resolve lookup_alloc_new lookup_alloc_old lookup_dealloc_other
  lookup_store_other fresh_loc_ne fresh_loc_None : heap.
Hint Extern 1 (_ <> fresh_loc _) => eapply fresh_loc_ne : heap.
Hint Extern 1 (fresh_loc _ <> _) => apply not_eq_sym; eapply fresh_loc_ne : heap.

Ltac live := cbn [heap last_error calls]; eauto 40 with heap.

Ltac step tac :=
  erewrite run_bind; [ | solve [tac] ]; cbn [heap last_error calls register].

Ltac name_fresh :=
  repeat match goal with
  | |- context [fresh_loc ?h] =>
      lazymatch h with
      | context [fresh_loc _] => fail
      | _ =>
          let F := fresh "F" in
          let l := fresh "l" in
          pose proof (fresh_loc_None h) as F;
          set (l := fresh_loc h) in *; clearbody l
      end
  end;
  repeat match goal with
  | H : <[_ := _]> _ !! _ = None |- _ =>
      apply lookup_insert_None in H; destruct H
  end.

Ltac heap_eq :=
  apply map_eq; intros ?;
  repeat (rewrite lookup_insert || rewrite lookup_delete);
  repeat case_decide; subst; congruence.

Ltac first_call_tac :=
  unfold first_call; cbn [calls]; rewrite <- ?app_assoc; cbn [app];
  eexists; reflexivity.

Ltac slot_tac :=
  cbn [last_error];
  first [apply register_None_r | f_equal; apply register_None_r].

Ltac finish :=
  rewrite ?run_ret; eexists _, _, _; split; [reflexivity |].

(** ** The code returns along one of the listed paths *)

Lemma apply_style_runs w s d n p xml params :
  heap w !! s = Some (OStyle d n p) ->
  exists rc out w',
    apply_style (Some s) xml params w = Some (rc, out, w')
    /\ apply_style_run p xml params w rc out w'.
Proof.
  intros Hs. unfold apply_style.
  destruct (Z.ltb_spec INT32_MAX (strlen xml)) as [Hlong | Hlen].
  { finish. by constructor. }
  rewrite to_int_strlen by done.
  destruct (parse_text E xml (strlen xml)) as [[t |] e] eqn:Hp.
  2: { step ltac:(eapply run_parse_none; eassumption).
       step ltac:(apply run_xmlGetLastError).
       step ltac:(apply run_xmlResetLastError).
       finish. eapply ApplyParseFailed; eauto; [done | first_call_tac]. }
  step ltac:(eapply run_parse_some; eassumption).
  step ltac:(apply run_xmlGetLastError).
  destruct (register e (last_error w)) as [pending |] eqn:Hreg.
  { step ltac:(apply run_xmlResetLastError).
    finish. eapply ApplyParseFailed; eauto.
    - right. by rewrite Hreg.
    - cbn [heap]. eexists. split; [apply fresh_loc_None | done].
    - first_call_tac. }
  assert (e = None /\ last_error w = None) as [-> Herr].
  { destruct e; [discriminate | done]. }
  destruct (transform_tree E p t params) as [[r |] ea] eqn:Ht.
  2: { step ltac:(eapply run_apply_none; [live | live | eassumption]).
       step ltac:(eapply run_xmlFreeDoc; live).
       finish. eapply ApplyNoResult; eauto.
       - cbn [heap]. name_fresh. heap_eq.
       - slot_tac.
       - first_call_tac. }
  step ltac:(eapply run_apply_some; [live | live | eassumption]).
  destruct (serialize_tree E r p) as [[st out] e] eqn:Hser.
  destruct out as [bs |].
  2: { step ltac:(eapply run_save_none; [live | live | eassumption]).
       rewrite Z.ltb_irrefl, andb_false_r.
       step ltac:(apply run_ret).
       step ltac:(eapply run_xmlFreeDoc; live).
       step ltac:(eapply run_xmlFreeDoc; live).
       finish. eapply (ApplyNoBuffer _ _ _ _ _ _ _ _ None); eauto.
       - cbn [heap fmap option_fmap option_map extended]. name_fresh. heap_eq.
       - slot_tac.
       - first_call_tac. }
  step ltac:(eapply run_save_some; [live | live | eassumption]).
  destruct ((st =? 0) && (0 <? strlen bs)) eqn:Hcond.
  - apply andb_true_iff in Hcond as [Hst Hpos].
    apply Z.eqb_eq in Hst. apply Z.ltb_lt in Hpos. subst st.
    rewrite !run_assoc.
    step ltac:(apply run_malloc).
    rewrite !run_assoc.
    step ltac:(eapply run_strncpy; [live | live | by rewrite length_replicate]).
    rewrite !run_assoc.
    step ltac:(eapply run_xmlFree; live).
    step ltac:(apply run_ret).
    step ltac:(eapply run_xmlFreeDoc; live).
    step ltac:(eapply run_xmlFreeDoc; live).
    finish.
    rewrite drop_ge, app_nil_r by (by rewrite length_replicate).
    replace (Z.to_nat (strlen bs)) with (length bs)
      by (unfold strlen; by rewrite Nat2Z.id).
    name_fresh.
    eapply ApplyOutput; eauto.
    + cbn [heap]. heap_eq.
    + slot_tac.
    + first_call_tac.
  - step ltac:(apply run_ret).
    step ltac:(eapply run_xmlFreeDoc; live).
    step ltac:(eapply run_xmlFreeDoc; live).
    finish. eapply (ApplyNoBuffer _ _ _ _ _ _ _ _ (Some bs)); eauto.
    + cbn [from_option]. apply andb_false_iff in Hcond as [Hst | Hpos].
      * left. by apply Z.eqb_neq.
      * right. apply Z.ltb_ge in Hpos. pose proof (strlen_nonneg bs). lia.
    + cbn [heap fmap option_fmap option_map extended]. name_fresh.
      eexists. split; [eassumption | heap_eq].
    + slot_tac.
    + first_call_tac.
Qed.

Lemma make_style_runs w xsl :
  exists rc stored w',
    make_style xsl w = Some (rc, stored, w')
    /\ make_style_run xsl w rc stored w'.
Proof.
  unfold make_style.
  destruct (Z.ltb_spec INT32_MAX (strlen xsl)) as [Hlong | Hlen].
  { finish. by constructor. }
  rewrite to_int_strlen by done.
  destruct (parse_text E xsl (strlen xsl)) as [[t |] e] eqn:Hp.
  2: { step ltac:(eapply run_parse_none; eassumption).
       step ltac:(apply run_xmlGetLastError).
       step ltac:(apply run_xmlResetLastError).
       finish. eapply MakeParseFailed; eauto; [done | first_call_tac]. }
  step ltac:(eapply run_parse_some; eassumption).
  step ltac:(apply run_xmlGetLastError).
  destruct (register e (last_error w)) as [pending |] eqn:Hreg.
  { step ltac:(apply run_xmlResetLastError).
    finish. eapply MakeParseFailed; eauto.
    - right. by rewrite Hreg.
    - cbn [heap]. eexists. split; [apply fresh_loc_None | done].
    - first_call_tac. }
  assert (e = None /\ last_error w = None) as [-> Herr].
  { destruct e; [discriminate | done]. }
  destruct (compile_tree E t) as [[[p n] |] e] eqn:Hc.
  2: { step ltac:(eapply run_compile_none; [live | eassumption]).
       step ltac:(apply run_ret).
       step ltac:(eapply run_xmlFreeDoc; live).
       finish. eapply MakeNoProgram; eauto.
       - cbn [heap]. name_fresh. heap_eq.
       - slot_tac.
       - first_call_tac. }
  step ltac:(eapply run_compile_some; [live | eassumption]).
  step ltac:(erewrite run_bind; [apply run_ret | eapply run_style_errors; live]).
  destruct (Z.eqb_spec n 0) as [-> | Hn]; cbn [negb].
  - finish. name_fresh. eapply (MakeOk xsl w t p e l l0); eauto.
    + slot_tac.
    + first_call_tac.
  - step ltac:(eapply run_xmlFreeDoc; live).
    finish. name_fresh. eapply (MakeErrors xsl w t p n e l l0); eauto.
    + cbn [heap]. heap_eq.
    + slot_tac.
    + first_call_tac.
Qed.

(** ** Consequences of the exit paths *)

Lemma extended_preserves h o h' l x :
  extended h o h' -> h !! l = Some x -> h' !! l = Some x.
Proof.
  destruct o as [o |]; cbn.
  - intros (l' & Hfree & ->) Hl. rewrite lookup_insert_ne; [done |].
    intros ->. congruence.
  - by intros ->.
Qed.

(** A buffer of the engine is no document: extending the heap with one adds
    no document. *)
Lemma extended_buffer_no_document h (out : option (list byte)) h' l t :
  extended h (OXmlBuf <$> out) h' ->
  h' !! l = Some (ODoc t) -> h !! l = Some (ODoc t).
Proof.
  destruct out as [bs |]; cbn.
  - intros (l' & Hfree & ->). rewrite lookup_insert.
    case_decide; [discriminate | done].
  - by intros ->.
Qed.

(** [apply_style] frees nothing it did not allocate. *)
Lemma apply_style_run_preserves p xml params w rc out w' l x :
  apply_style_run p xml params w rc out w' ->
  heap w !! l = Some x -> heap w' !! l = Some x.
Proof.
  intros Hrun Hl. inversion Hrun; subst; try done.
  - eapply extended_preserves; eauto.
  - congruence.
  - eapply extended_preserves; eauto.
  - match goal with H : heap w' = _ |- _ => rewrite H end.
    rewrite lookup_insert_ne; [done |]. intros ->. congruence.
Qed.

(** Without a NUL among them, [strncpy] copies the bytes as they are. *)
Lemma until_nul_id (bs : list byte) : x00 ∉ bs -> until_nul bs = bs.
Proof.
  induction bs as [| b bs IH]; [done |].
  intros Hnot. apply not_elem_of_cons in Hnot as [Hb Hbs]. cbn.
  destruct (Byte.eqb b x00) eqn:Heq.
  - apply Byte.byte_dec_bl in Heq. congruence.
  - by rewrite IH.
Qed.

Lemma strncpy_bytes_id (bs : list byte) :
  x00 ∉ bs -> strncpy_bytes bs (length bs) = bs.
Proof.
  intros Hnot. unfold strncpy_bytes. rewrite until_nul_id by done.
  rewrite firstn_all, Nat.sub_diag. apply app_nil_r.
Qed.

Lemma strncpy_bytes_length (bs : list byte) n :
  length (strncpy_bytes bs n) = n.
Proof.
  unfold strncpy_bytes. rewrite length_app, length_replicate, length_take. lia.
Qed.

(** Two answers of one oracle to one question are the same answer. *)
Ltac same_answer :=
  repeat match goal with
  | H1 : ?q = _, H2 : ?q = _ |- _ =>
      rewrite H1 in H2; first [discriminate H2 | injection H2; intros; subst]
  end.

Ltac invert_run H := inversion H; subst; same_answer.

(** The exit paths that the hypotheses rule out. *)
Ltac off_path :=
  try lia; try congruence;
  try (match goal with
       | H : _ \/ _ |- _ =>
           destruct H as [H | H];
           first [ discriminate H
                 | congruence
                 | cbn in H; lia
                 | exfalso; apply H; cbn; assumption ]
       end).

(** ** The claims about [apply_style], [make_style] and [xslt] *)

(** C4.  When the serializer reports a non-zero status, [apply_style]
    returns that status, stores nothing through [xml_txt], and leaves the
    heap as it found it but for the buffer the serializer itself allocated
    (if it allocated one): neither the input tree nor the result tree is
    left, and no document is live that was not live before the call. *)
Theorem apply_style_serialize_failure
    w s d n p xml params t r ea st out e :
  heap w !! s = Some (OStyle d n p) ->
  strlen xml <= INT32_MAX ->
  last_error w = None ->
  parse_text E xml (strlen xml) = (Some t, None) ->
  transform_tree E p t params = (Some r, ea) ->
  serialize_tree E r p = (st, out, e) ->
  st <> 0 ->
  exists txt_len w',
    apply_style (Some s) xml params w
    = Some (st, Outputs None (Some txt_len), w')
    /\ extended (heap w) (OXmlBuf <$> out) (heap w')
    /\ (forall l t', heap w' !! l = Some (ODoc t') ->
                     heap w !! l = Some (ODoc t')).
Proof.
  intros Hs Hlen Herr Hp Ht Hser Hst.
  destruct (apply_style_runs w s d n p xml params Hs)
    as (rc & o & w' & Heq & Hrun).
  invert_run Hrun; off_path.
  eexists _, _. split; [eassumption |]. split; [done |].
  intros l t'. by eapply extended_buffer_no_document.
Qed.




(** What [apply_style] does when the serializer succeeds: with a positive
    length it hands out a block of that length holding what [strncpy]
    copied, and frees the serializer's buffer and both trees; with length
    zero it stores nothing through [xml_txt] and still returns 0. *)
Lemma apply_style_success w s d n p xml params t r ea out e :
  heap w !! s = Some (OStyle d n p) ->
  strlen xml <= INT32_MAX ->
  last_error w = None ->
  parse_text E xml (strlen xml) = (Some t, None) ->
  transform_tree E p t params = (Some r, ea) ->
  serialize_tree E r p = (0, out, e) ->
  exists outs w',
    apply_style (Some s) xml params w = Some (0, outs, w')
    /\ out_len outs = Some (from_option strlen 0 out)
    /\ match out with
       | Some (b :: bs) =>
           exists l,
             out_txt outs = Some (Some l)
             /\ heap w !! l = None
             /\ heap w'
                = <[l := OBuf (Some <$> strncpy_bytes (b :: bs) (length (b :: bs)))]>
                    (heap w)
       | _ => out_txt outs = None
              /\ extended (heap w) (OXmlBuf <$> out) (heap w')
       end.
Proof.
  intros Hs Hlen Herr Hp Ht Hser.
  destruct (apply_style_runs w s d n p xml params Hs)
    as (rc & o & w' & Heq & Hrun).
  invert_run Hrun; off_path.
  - eexists _, _. split; [eassumption |]. split; [done |].
    match goal with H : _ \/ _ |- _ => destruct H as [H | H]; [done |] end.
    match goal with
    | |- match ?o with _ => _ end => destruct o as [[| b bs] |]; try done
    end.
  - eexists _, _. split; [eassumption |]. split; [done |].
    destruct bs as [| b bs]; [unfold strlen in *; cbn in *; lia |].
    eauto.
Qed.

(** When the serialized text has no NUL byte, the block holds exactly that
    text. *)
Lemma apply_style_success_text w s d n p xml params t r ea b bs e :
  heap w !! s = Some (OStyle d n p) ->
  strlen xml <= INT32_MAX ->
  last_error w = None ->
  parse_text E xml (strlen xml) = (Some t, None) ->
  transform_tree E p t params = (Some r, ea) ->
  serialize_tree E r p = (0, Some (b :: bs), e) ->
  x00 ∉ b :: bs ->
  exists outs w',
    apply_style (Some s) xml params w = Some (0, outs, w')
    /\ out_len outs = Some (strlen (b :: bs))
    /\ output_bytes w' outs = Some (Some <$> b :: bs).
Proof.
  intros Hs Hlen Herr Hp Ht Hser Hnul.
  destruct (apply_style_success w s d n p xml params t r ea _ e
              Hs Hlen Herr Hp Ht Hser)
    as (outs & w' & Heq & Hl & l & Htxt & Hfree & Hheap).
  exists outs, w'. split; [done |]. split; [done |].
  unfold output_bytes. rewrite Htxt, Hheap, lookup_insert_eq.
  by rewrite strncpy_bytes_id.
Qed.

(** The two exits that leave an object behind, for any engine.  When the
    compiled stylesheet carries errors, [make_style] frees the document
    and leaves the stylesheet allocated. *)
Lemma make_style_errors_path w xsl t p n e :
  strlen xsl <= INT32_MAX ->
  last_error w = None ->
  parse_text E xsl (strlen xsl) = (Some t, None) ->
  compile_tree E t = (Some (p, n), e) ->
  n <> 0 ->
  exists s d w',
    make_style xsl w = Some (-1, Some (Some s), w')
    /\ heap w !! s = None
    /\ heap w' !! s = Some (OStyle d n p)
    /\ heap w' !! d = None.
Proof.
  intros Hlen Herr Hp Hc Hn.
  destruct (make_style_runs w xsl) as (rc & stored & w' & Heq & Hrun).
  invert_run Hrun; off_path.
  eexists _, _, _. split; [eassumption |]. split; [done |].
  match goal with H : heap w' = _ |- _ => rewrite H end.
  rewrite lookup_insert_eq, lookup_insert_ne by done. by split.
Qed.

(** When the parser returns a tree and an error is pending after it,
    [apply_style] resets the slot and leaves the tree allocated. *)
Lemma apply_style_parse_error_path w s d n p xml params t e :
  heap w !! s = Some (OStyle d n p) ->
  strlen xml <= INT32_MAX ->
  parse_text E xml (strlen xml) = (Some t, e) ->
  register e (last_error w) <> None ->
  exists l w',
    apply_style (Some s) xml params w = Some (-1, no_output, w')
    /\ heap w !! l = None
    /\ heap w' = <[l := ODoc t]> (heap w)
    /\ last_error w' = None.
Proof.
  intros Hs Hlen Hp Hpending.
  destruct (apply_style_runs w s d n p xml params Hs)
    as (rc & o & w' & Heq & Hrun).
  invert_run Hrun; try lia;
    try (exfalso; apply Hpending; cbn; assumption).
  match goal with
  | H : extended _ _ _ |- _ => destruct H as (l & Hfree & Hheap)
  end.
  exists l, w'. by repeat split.
Qed.

(** ** The output step and its environment *)


Lemma run_bind_ext {A B} (c : M E A) (k1 k2 : A -> M E B) w :
  (forall a w', c w = Some (a, w') -> k1 a w' = k2 a w') ->
  (c ≫= k1) w = (c ≫= k2) w.
Proof.
  intros H. unfold mbind, M_bind. destruct (c w) as [[a w'] |]; auto.
Qed.

Lemma run_bind_inv {A B} (c : M E A) (k : A -> M E B) w r :
  (c ≫= k) w = Some r -> exists a w', c w = Some (a, w') /\ k a w' = Some r.
Proof.
  unfold mbind, M_bind. destruct (c w) as [[a w'] |]; [eauto | done].
Qed.

Lemma store_int_in_zero_cell cell v :
  0 <= cell < 4294967296 -> 0 <= v <= INT32_MAX ->
  store_int_in_size_t cell v = v.
Proof.
  unfold store_int_in_size_t, INT32_MAX. intros Hc Hv.
  rewrite Z.div_small by lia. rewrite Z.mod_small by lia. lia.
Qed.

Lemma xsltSaveResultToString_length res style (w w' : world E) ok out len :
  int_lengths E ->
  xsltSaveResultToString res style w = Some (ok, out, len, w') ->
  0 <= len <= INT32_MAX.
Proof.
  intros Hint Hrun. unfold xsltSaveResultToString in Hrun.
  apply run_bind_inv in Hrun as (_ & w1 & _ & Hrun).
  apply run_bind_inv in Hrun as (t & w2 & _ & Hrun).
  apply run_bind_inv in Hrun as ([[d n] p] & w3 & _ & Hrun).
  destruct (serialize_tree E t p) as [[status o] e] eqn:Hser.
  apply run_bind_inv in Hrun as (_ & w4 & _ & Hrun).
  destruct o as [bs |].
  - apply run_bind_inv in Hrun as (l & w5 & _ & Hrun).
    injection Hrun as _ _ <- _.
    split; [apply strlen_nonneg | by eapply Hint].
  - injection Hrun as _ _ <- _. unfold INT32_MAX. lia.
Qed.

Lemma apply_style_at_zero_cell cell style xml params (w : world E) :
  int_lengths E ->
  0 <= cell < 4294967296 ->
  apply_style_at cell true style xml params w = apply_style style xml params w.
Proof.
  intros Hint Hcell. unfold apply_style_at, apply_style.
  destruct (INT32_MAX <? strlen xml); [done |].
  apply run_bind_ext; intros xml_doc w1 _.
  apply run_bind_ext; intros err w2 _.
  destruct xml_doc as [doc |], err; try done.
  apply run_bind_ext; intros result w3 _.
  destruct result as [res |]; [| done].
  apply run_bind_ext; intros [[ok out] len] w4 Hsave.
  rewrite store_int_in_zero_cell
    by (done || by eapply xsltSaveResultToString_length).
  done.
Qed.

Lemma xslt_at_zero_cell cell xsl xml params (w : world E) :
  int_lengths E ->
  0 <= cell < 4294967296 ->
  xslt_at cell true xsl xml params w = xslt xsl xml params w.
Proof.
  intros Hint Hcell. unfold xslt_at, xslt.
  apply run_bind_ext; intros [ok stored] w1 _.
  destruct (ok <? 0); [done |]. destruct stored as [style |]; [| done].
  unfold mbind, M_bind. by rewrite apply_style_at_zero_cell.
Qed.



(** Before the serializer is called the two functions do the same: a run
    that ends at the parse does not depend on the cell or on [malloc]. *)
Lemma apply_style_at_parse_null cell granted style xml params (w : world E) e :
  strlen xml <= INT32_MAX ->
  parse_text E xml (strlen xml) = (None, e) ->
  apply_style_at cell granted style xml params w
  = apply_style style xml params w.
Proof.
  intros Hlen Hp. unfold apply_style_at, apply_style.
  rewrite (proj2 (Z.ltb_ge _ _)) by done.
  rewrite to_int_strlen by done.
  by rewrite !(run_bind _ _ _ _ _ (run_parse_none _ _ _ _ Hp)).
Qed.


(** ** Further properties of [make_style], [apply_style] and [xslt] *)

(** X1.  [make_style] returns in every state, with 0 or -1.  On 0 it has stored
    a handle to a live stylesheet without errors, and the document that
    stylesheet owns is live too (it is not freed: it went over to the
    stylesheet). *)
Theorem make_style_result w xsl :
  exists rc stored w',
    make_style xsl w = Some (rc, stored, w')
    /\ (rc = 0 \/ rc = -1)
    /\ (rc = 0 ->
        exists s d p t,
          stored = Some (Some s)
          /\ heap w' !! s = Some (OStyle d 0 p)
          /\ heap w' !! d = Some (ODoc t)
          /\ s <> d).
Proof.
  destruct (make_style_runs w xsl) as (rc & stored & w' & Heq & Hrun).
  exists rc, stored, w'. split; [done |].
  inversion Hrun; subst; (split; [tauto |]); try discriminate.
  intros _. exists s, d, p, t.
  match goal with H : heap w' = _ |- _ => rewrite H end.
  rewrite lookup_insert_eq, lookup_insert_ne, lookup_insert_eq by done.
  by repeat split.
Qed.

(** X2.  Compiling and releasing: after a [make_style] that returns 0,
    [free_style] on the stored handle is defined and leaves the heap as it
    was before [make_style]. *)
Theorem make_style_free_style w xsl t p e :
  strlen xsl <= INT32_MAX ->
  last_error w = None ->
  parse_text E xsl (strlen xsl) = (Some t, None) ->
  compile_tree E t = (Some (p, 0), e) ->
  exists s w1 w2,
    make_style xsl w = Some (0, Some (Some s), w1)
    /\ heap w !! s = None
    /\ free_style (Some s) w1 = Some (tt, w2)
    /\ heap w2 = heap w
    /\ last_error w2 = e.
Proof.
  intros Hlen Herr Hp Hc.
  destruct (make_style_runs w xsl) as (rc & stored & w1 & Heq & Hrun).
  invert_run Hrun; off_path.
  match goal with H : heap w1 = _ |- _ => rename H into Hheap end.
  eexists _, w1, _. split; [done |]. split; [done |]. split.
  - eapply run_free_style; rewrite Hheap.
    + apply lookup_insert_eq.
    + by rewrite lookup_insert_ne, lookup_insert_eq.
  - cbn [heap last_error]. split; [| done].
    rewrite Hheap. heap_eq.
Qed.

(** X3.  When the parser returns no tree, or the compiler no stylesheet,
    [make_style] returns -1 and leaves the heap as it found it: the
    document it parsed, if any, has been freed. *)
Theorem make_style_failure_frees_document w xsl :
  strlen xsl <= INT32_MAX ->
  (exists e, parse_text E xsl (strlen xsl) = (None, e))
  \/ (exists t e,
        last_error w = None
        /\ parse_text E xsl (strlen xsl) = (Some t, None)
        /\ compile_tree E t = (None, e)) ->
  exists stored w',
    make_style xsl w = Some (-1, stored, w')
    /\ heap w' = heap w
    /\ (stored = None \/ stored = Some None).
Proof.
  intros Hlen Hcase.
  destruct (make_style_runs w xsl) as (rc & stored & w' & Heq & Hrun).
  destruct Hcase as [(e & Hp) | (t & e & Herr & Hp & Hc)];
    invert_run Hrun; off_path;
    eexists _, _; (split; [eassumption |]); split; auto.
Qed.

(** X4.  After the exit of [make_style] for a stylesheet with errors, the handle
    it stored cannot be released: [free_style] on it would free the
    document a second time. *)
Theorem make_style_errors_handle_unusable w xsl t p n e :
  strlen xsl <= INT32_MAX ->
  last_error w = None ->
  parse_text E xsl (strlen xsl) = (Some t, None) ->
  compile_tree E t = (Some (p, n), e) ->
  n <> 0 ->
  exists s w',
    make_style xsl w = Some (-1, Some (Some s), w')
    /\ free_style (Some s) w' = None.
Proof.
  intros Hlen Herr Hp Hc Hn.
  destruct (make_style_runs w xsl) as (rc & stored & w' & Heq & Hrun).
  invert_run Hrun; off_path.
  eexists _, _. split; [eassumption |].
  match goal with H : heap w' = _ |- _ => rename H into Hheap end.
  unfold free_style, xsltFreeStylesheet, load_style, load_doc, load, log,
    mbind, M_bind.
  cbn. rewrite Hheap, lookup_insert_eq. cbn.
  rewrite lookup_insert_ne by done.
  match goal with H : heap w !! d = None |- _ => by rewrite H end.
Qed.

(** X5.  When the transform returns no result tree, [apply_style] returns -1,
    stores nothing through either output pointer and leaves the heap as it
    found it: the input tree has been freed. *)
Theorem apply_style_no_result w s d n p xml params t ea :
  heap w !! s = Some (OStyle d n p) ->
  strlen xml <= INT32_MAX ->
  last_error w = None ->
  parse_text E xml (strlen xml) = (Some t, None) ->
  transform_tree E p t params = (None, ea) ->
  exists w',
    apply_style (Some s) xml params w = Some (-1, no_output, w')
    /\ heap w' = heap w
    /\ last_error w' = ea.
Proof.
  intros Hs Hlen Herr Hp Ht.
  destruct (apply_style_runs w s d n p xml params Hs)
    as (rc & o & w' & Heq & Hrun).
  invert_run Hrun; off_path.
  exists w'. by repeat split.
Qed.

(** X6.  When the cell at [xml_txt_len] has its upper half zero and [malloc]
    returns a block, [apply_style] returns, and leaves every object that was
    live when it was called as it was: in particular the stylesheet and its
    document, so the stylesheet can be applied again, under the same
    conditions, and released afterwards. *)
Theorem apply_style_frame w s d n p t0 xml params cell cell' :
  heap w !! s = Some (OStyle d n p) ->
  heap w !! d = Some (ODoc t0) ->
  int_lengths E ->
  0 <= cell < 4294967296 ->
  0 <= cell' < 4294967296 ->
  exists rc out w',
    apply_style_at cell true (Some s) xml params w = Some (rc, out, w')
    /\ (forall l o, heap w !! l = Some o -> heap w' !! l = Some o)
    /\ (exists rc2 out2 w2,
          apply_style_at cell' true (Some s) xml params w'
          = Some (rc2, out2, w2))
    /\ (exists w3, free_style (Some s) w' = Some (tt, w3)).
Proof.
  intros Hs Hd Hint Hcell Hcell'.
  destruct (apply_style_runs w s d n p xml params Hs)
    as (rc & o & w' & Heq & Hrun).
  assert (forall l x, heap w !! l = Some x -> heap w' !! l = Some x) as Hframe.
  { intros l x. by eapply apply_style_run_preserves. }
  exists rc, o, w'. rewrite apply_style_at_zero_cell by done.
  split; [done |]. split; [done |]. split.
  - destruct (apply_style_runs w' s d n p xml params (Hframe _ _ Hs))
      as (rc2 & o2 & w2 & Heq2 & _).
    exists rc2, o2, w2. by rewrite apply_style_at_zero_cell.
  - eexists. eapply run_free_style; eauto.
Qed.

(** X7.  When the cell at [xml_txt_len] has its upper half zero and [malloc]
    returns a block, [xslt] returns, for every input; when it returns a
    non-zero result it has stored nothing through [xml_txt]. *)
Theorem xslt_failure_keeps_xml_txt (w : world E) xsl xml params cell :
  int_lengths E ->
  0 <= cell < 4294967296 ->
  exists rc out w',
    xslt_at cell true xsl xml params w = Some (rc, out, w')
    /\ (rc <> 0 -> out_txt out = None).
Proof.
  intros Hint Hcell. rewrite xslt_at_zero_cell by done.
  destruct (make_style_runs w xsl) as (rc & stored & w1 & Heq & Hrun).
  unfold xslt. erewrite run_bind by eassumption.
  inversion Hrun; subst; try (eexists _, _, _; split; [reflexivity | done]).
  assert (heap w1 !! s = Some (OStyle d 0 p)
          /\ heap w1 !! d = Some (ODoc t)) as [Hs Hd].
  { match goal with H : heap w1 = _ |- _ => rewrite H end.
    rewrite lookup_insert_eq, lookup_insert_ne, lookup_insert_eq by done.
    by split. }
  destruct (apply_style_runs w1 s d 0 p xml params Hs)
    as (rc2 & out & w2 & Heq2 & Hrun2).
  cbn. erewrite run_bind by eassumption. cbn.
  erewrite run_bind
    by (eapply run_free_style; eapply apply_style_run_preserves; eauto).
  eexists _, _, _. split; [reflexivity |].
  intros Hrc. by inversion Hrun2; subst.
Qed.

Lemma stored_style_live h (h1 : gmap loc (obj E)) s d p t :
  h1 = <[s := OStyle d 0 p]> (<[d := ODoc t]> h) ->
  s <> d ->
  h1 !! s = Some (OStyle d 0 p) /\ h1 !! d = Some (ODoc t).
Proof.
  intros -> Hne.
  rewrite lookup_insert_eq, lookup_insert_ne, lookup_insert_eq by done.
  by split.
Qed.

(** X8.  When the cell at [xml_txt_len] has its upper half zero and [malloc]
    returns a block, a clean run of [xslt] returns 0 and leaves behind the
    output block and nothing else: the stylesheet, its document, the input
    tree, the result tree and the serializer's buffer have all been
    freed. *)
Theorem xslt_leaves_only_output
    w xsl xml params ts p t r ea bs e cell :
  int_lengths E ->
  0 <= cell < 4294967296 ->
  strlen xsl <= INT32_MAX ->
  strlen xml <= INT32_MAX ->
  last_error w = None ->
  parse_text E xsl (strlen xsl) = (Some ts, None) ->
  compile_tree E ts = (Some (p, 0), None) ->
  parse_text E xml (strlen xml) = (Some t, None) ->
  transform_tree E p t params = (Some r, ea) ->
  serialize_tree E r p = (0, Some bs, e) ->
  0 < strlen bs ->
  exists l w',
    xslt_at cell true xsl xml params w
    = Some (0, Outputs (Some (Some l)) (Some (strlen bs)), w')
    /\ heap w !! l = None
    /\ heap w'
       = <[l := OBuf (Some <$> strncpy_bytes bs (length bs))]> (heap w).
Proof.
  intros Hint Hcell Hlen Hlen' Herr Hps Hc Hp Ht Hser Hpos.
  assert (xslt_at cell true xsl xml params w = xslt xsl xml params w) as ->
    by (by apply xslt_at_zero_cell).
  destruct (make_style_runs w xsl) as (rc & stored & w1 & Heq & Hrun).
  unfold xslt. erewrite run_bind by eassumption.
  invert_run Hrun; off_path.
  match goal with H : heap w1 = _ |- _ => rename H into Hheap1 end.
  destruct (stored_style_live _ _ _ _ _ _ Hheap1 ltac:(done))
    as [Hs Hd].
  destruct (apply_style_runs w1 _ _ 0 _ xml params Hs)
    as (rc2 & out & w2 & Heq2 & Hrun2).
  assert (last_error w1 = None) as Herr1 by congruence.
  cbn. erewrite run_bind by eassumption.
  invert_run Hrun2; off_path.
  match goal with H : heap w2 = _ |- _ => rename H into Hheap2 end.
  match goal with H : heap w1 !! l = None |- _ => rename H into Hl end.
  assert (l <> s /\ l <> d) as [Hls Hld].
  { split; intros ->; congruence. }
  cbn. erewrite run_bind.
  2: { eapply run_free_style;
         (rewrite Hheap2, lookup_insert_ne by done; eassumption). }
  rewrite Hheap1 in Hl.
  apply lookup_insert_None in Hl as [Hl ?].
  apply lookup_insert_None in Hl as [Hl ?].
  eexists l, _. split; [reflexivity |]. split; [done |].
  cbn [heap]. rewrite Hheap2, Hheap1. heap_eq.
Qed.

(** X9.  A stylesheet that compiles without errors but whose compilation
    registers an error in the slot cannot be applied by [xslt]: whatever
    the XML text, [xslt] returns -1 and stores nothing. *)
Theorem xslt_fails_after_compile_message
    w xsl xml params ts p c :
  strlen xsl <= INT32_MAX ->
  last_error w = None ->
  parse_text E xsl (strlen xsl) = (Some ts, None) ->
  compile_tree E ts = (Some (p, 0), Some c) ->
  exists w', xslt xsl xml params w = Some (-1, no_output, w').
Proof.
  intros Hlen Herr Hps Hc.
  destruct (make_style_runs w xsl) as (rc & stored & w1 & Heq & Hrun).
  unfold xslt. erewrite run_bind by eassumption.
  invert_run Hrun; off_path.
  match goal with H : heap w1 = _ |- _ => rename H into Hheap1 end.
  destruct (stored_style_live _ _ _ _ _ _ Hheap1 ltac:(done))
    as [Hs Hd].
  destruct (apply_style_runs w1 _ _ 0 _ xml params Hs)
    as (rc2 & out & w2 & Heq2 & Hrun2).
  cbn. erewrite run_bind by eassumption. cbn.
  erewrite run_bind
    by (eapply run_free_style; eapply apply_style_run_preserves; eauto).
  inversion Hrun2; subst; try congruence; eexists; reflexivity.
Qed.

(** ** The block [apply_style] hands out *)

Lemma until_nul_prefix (bs : list byte) : until_nul bs `prefix_of` bs.
Proof.
  induction bs as [| b bs IH]; cbn; [done |].
  destruct (Byte.eqb b x00); [apply prefix_nil | by apply prefix_cons].
Qed.

Lemma until_nul_no_nul (bs : list byte) : x00 ∉ until_nul bs.
Proof.
  induction bs as [| b bs IH]; cbn; [apply not_elem_of_nil |].
  destruct (Byte.eqb b x00) eqn:Heq; [apply not_elem_of_nil |].
  apply not_elem_of_cons. split; [| done].
  intros <-. by rewrite (Byte.byte_dec_lb (eq_refl x00)) in Heq.
Qed.

Lemma strncpy_bytes_whole (bs : list byte) :
  strncpy_bytes bs (length bs)
  = until_nul bs ++ replicate (length bs - length (until_nul bs)) x00.
Proof.
  unfold strncpy_bytes.
  by rewrite take_ge by apply prefix_length, until_nul_prefix.
Qed.

(** X10.  When the cell at [xml_txt_len] has its upper half zero and
    [malloc] returns a block: on success with a positive length, the block
    handed out has exactly the length stored through [xml_txt_len], every
    byte of it written; it holds the serialized text up to its first NUL
    byte and NUL bytes from there on. *)
Theorem apply_style_output_block
    w s d n p xml params t r ea bs e cell :
  int_lengths E ->
  0 <= cell < 4294967296 ->
  heap w !! s = Some (OStyle d n p) ->
  strlen xml <= INT32_MAX ->
  last_error w = None ->
  parse_text E xml (strlen xml) = (Some t, None) ->
  transform_tree E p t params = (Some r, ea) ->
  serialize_tree E r p = (0, Some bs, e) ->
  0 < strlen bs ->
  exists outs w' blk,
    apply_style_at cell true (Some s) xml params w = Some (0, outs, w')
    /\ out_len outs = Some (strlen bs)
    /\ output_bytes w' outs = Some (Some <$> blk)
    /\ strlen blk = strlen bs
    /\ blk = until_nul bs
             ++ replicate (length bs - length (until_nul bs)) x00
    /\ until_nul bs `prefix_of` bs
    /\ x00 ∉ until_nul bs.
Proof.
  intros Hint Hcell Hs Hlen Herr Hp Ht Hser Hpos.
  assert (apply_style_at cell true (Some s) xml params w
          = apply_style (Some s) xml params w) as ->
    by (by apply apply_style_at_zero_cell).
  destruct (apply_style_runs w s d n p xml params Hs)
    as (rc & o & w' & Heq & Hrun).
  invert_run Hrun; off_path.
  match goal with
  | H : heap w' = <[_ := OBuf (_ <$> ?blk)]> _ |- _ => eexists _, w', blk
  end.
  split; [eassumption |]. split; [done |]. split.
  { unfold output_bytes. cbn [out_txt].
    match goal with H : heap w' = _ |- _ => rewrite H end.
    by rewrite lookup_insert_eq. }
  split; [unfold strlen; by rewrite strncpy_bytes_length |].
  split; [apply strncpy_bytes_whole |].
  split; [apply until_nul_prefix | apply until_nul_no_nul].
Qed.

(** ** The size given to the parser *)


(** ** A failed parse *)

(** X12.  When the parser returns no tree, [apply_style] returns -1, stores
    nothing, leaves the heap as it found it and the error slot empty,
    whatever the slot held before. *)
Theorem apply_style_parse_null w s d n p xml params e :
  heap w !! s = Some (OStyle d n p) ->
  strlen xml <= INT32_MAX ->
  parse_text E xml (strlen xml) = (None, e) ->
  exists w',
    apply_style (Some s) xml params w = Some (-1, no_output, w')
    /\ heap w' = heap w
    /\ last_error w' = None.
Proof.
  intros Hs Hlen Hp.
  destruct (apply_style_runs w s d n p xml params Hs)
    as (rc & o & w' & Heq & Hrun).
  invert_run Hrun; try lia.
  exists w'. by repeat split.
Qed.

(** X13.  A failed parse does not spoil the next call: after [apply_style] has
    returned -1 on a text the parser rejects, whatever the slot and the
    cell at [xml_txt_len] held before, [apply_style] on a text that parses
    and transforms cleanly returns 0 with its output, when the upper half
    of the cell is zero and [malloc] returns a block. *)
Theorem apply_style_recovers
    w s d n p bad good params e t r ea bs es cell cell' granted :
  int_lengths E ->
  0 <= cell' < 4294967296 ->
  heap w !! s = Some (OStyle d n p) ->
  strlen bad <= INT32_MAX ->
  strlen good <= INT32_MAX ->
  parse_text E bad (strlen bad) = (None, e) ->
  parse_text E good (strlen good) = (Some t, None) ->
  transform_tree E p t params = (Some r, ea) ->
  serialize_tree E r p = (0, Some bs, es) ->
  0 < strlen bs ->
  exists w1 l w2,
    apply_style_at cell granted (Some s) bad params w
    = Some (-1, no_output, w1)
    /\ apply_style_at cell' true (Some s) good params w1
       = Some (0, Outputs (Some (Some l)) (Some (strlen bs)), w2)
    /\ heap w2
       = <[l := OBuf (Some <$> strncpy_bytes bs (length bs))]> (heap w).
Proof.
  intros Hint Hcell Hs Hbad Hgood Hpb Hpg Ht Hser Hpos.
  assert (apply_style_at cell granted (Some s) bad params w
          = apply_style (Some s) bad params w) as ->
    by (by eapply apply_style_at_parse_null).
  assert (forall w1 : world E,
            apply_style_at cell' true (Some s) good params w1
            = apply_style (Some s) good params w1) as Hsame
    by (intros w1; by apply apply_style_at_zero_cell).
  setoid_rewrite Hsame.
  destruct (apply_style_runs w s d n p bad params Hs)
    as (rc & o & w1 & Heq & Hrun).
  invert_run Hrun; try lia.
  match goal with H : extended _ _ (heap w1) |- _ => cbn in H; rename H into Hheap1 end.
  match goal with H : last_error w1 = None |- _ => rename H into Herr1 end.
  assert (heap w1 !! s = Some (OStyle d n p)) as Hs1 by (by rewrite Hheap1).
  destruct (apply_style_runs w1 s d n p good params Hs1)
    as (rc2 & o2 & w2 & Heq2 & Hrun2).
  invert_run Hrun2; off_path.
  eexists w1, _, w2. split; [done |]. split; [done |]. congruence.
Qed.

(** ** What the cell and [malloc] change *)

Lemma store_int_in_size_t_parts cell v :
  0 <= v <= INT32_MAX ->
  store_int_in_size_t cell v = cell / 4294967296 * 4294967296 + v.
Proof.
  unfold store_int_in_size_t, INT32_MAX. intros Hv.
  by rewrite Z.mod_small by lia.
Qed.

Lemma strncpy_bytes_padded (bs : list byte) k :
  (length bs <= k)%nat ->
  strncpy_bytes bs k
  = until_nul bs ++ replicate (k - length (until_nul bs)) x00.
Proof.
  intros Hk. unfold strncpy_bytes.
  pose proof (prefix_length _ _ (until_nul_prefix bs)).
  by rewrite take_ge by lia.
Qed.

(** X20.  The result of [malloc] is not checked: when the serializer succeeds
    with a text of positive length and [malloc] returns [NULL],
    [apply_style] passes the null pointer to [strncpy] as its destination,
    which is undefined. *)
Theorem apply_style_malloc_null
    w s d n p xml params t r ea bs e cell :
  heap w !! s = Some (OStyle d n p) ->
  strlen xml <= INT32_MAX ->
  last_error w = None ->
  parse_text E xml (strlen xml) = (Some t, None) ->
  transform_tree E p t params = (Some r, ea) ->
  serialize_tree E r p = (0, Some bs, e) ->
  0 < strlen bs <= INT32_MAX ->
  0 <= cell ->
  apply_style_at cell false (Some s) xml params w = None.
Proof.
  intros Hs Hlen Herr Hp Ht Hser Hbs Hcell. unfold apply_style_at.
  rewrite (proj2 (Z.ltb_ge _ _)) by done.
  rewrite to_int_strlen by done.
  step ltac:(eapply run_parse_some; eassumption).
  step ltac:(apply run_xmlGetLastError).
  rewrite Herr. cbn [register].
  step ltac:(eapply run_apply_some; [live | live | eassumption]).
  step ltac:(eapply run_save_some; [live | live | eassumption]).
  rewrite store_int_in_size_t_parts by lia.
  assert (0 <= cell / 4294967296) by (apply Z.div_pos; lia).
  rewrite (proj2 (Z.ltb_lt _ _)) by lia. reflexivity.
Qed.

(** X21.  The length is stored as an [int] and read back as a [size_t]: what
    the caller left in the upper half of the cell at [xml_txt_len] stays
    there.  On a clean run, when [malloc] returns a block, the length
    handed out is the length of the text plus that upper half, and the
    block has as many bytes: the text up to its first NUL byte, and NUL
    bytes from there on. *)
Theorem apply_style_stale_cell
    w s d n p xml params t r ea bs e cell :
  heap w !! s = Some (OStyle d n p) ->
  strlen xml <= INT32_MAX ->
  last_error w = None ->
  parse_text E xml (strlen xml) = (Some t, None) ->
  transform_tree E p t params = (Some r, ea) ->
  serialize_tree E r p = (0, Some bs, e) ->
  strlen bs <= INT32_MAX ->
  0 <= cell ->
  0 < cell / 4294967296 * 4294967296 + strlen bs ->
  exists l w',
    apply_style_at cell true (Some s) xml params w
    = Some (0, Outputs (Some (Some l))
                       (Some (cell / 4294967296 * 4294967296 + strlen bs)),
            w')
    /\ heap w !! l = None
    /\ heap w'
       = <[l := OBuf (Some <$>
                        (until_nul bs
                         ++ replicate
                              (Z.to_nat (cell / 4294967296 * 4294967296
                                         + strlen bs)
                               - length (until_nul bs)) x00))]>
           (heap w).
Proof.
  intros Hs Hlen Herr Hp Ht Hser Hbs Hcell Hpos.
  pose proof (strlen_nonneg bs) as Hnn.
  assert (0 <= cell / 4294967296) as Hhigh by (apply Z.div_pos; lia).
  unfold apply_style_at.
  rewrite (proj2 (Z.ltb_ge _ _)) by done.
  rewrite to_int_strlen by done.
  step ltac:(eapply run_parse_some; eassumption).
  step ltac:(apply run_xmlGetLastError).
  rewrite Herr. cbn [register].
  step ltac:(eapply run_apply_some; [live | live | eassumption]).
  step ltac:(eapply run_save_some; [live | live | eassumption]).
  rewrite store_int_in_size_t_parts by lia.
  set (len := cell / 4294967296 * 4294967296 + strlen bs) in *.
  rewrite (proj2 (Z.ltb_lt _ _)) by done. cbn [Z.eqb andb malloc_at].
  rewrite !run_assoc.
  step ltac:(apply run_malloc).
  rewrite !run_assoc.
  step ltac:(eapply run_strncpy; [live | live | by rewrite length_replicate]).
  rewrite !run_assoc.
  step ltac:(eapply run_xmlFree; live).
  step ltac:(apply run_ret).
  step ltac:(eapply run_xmlFreeDoc; live).
  step ltac:(eapply run_xmlFreeDoc; live).
  rewrite run_ret.
  rewrite drop_ge, app_nil_r by (by rewrite length_replicate).
  rewrite strncpy_bytes_padded by (unfold strlen in *; lia).
  name_fresh.
  eexists _, _. split; [reflexivity |]. split; [done |].
  cbn [heap]. heap_eq.
Qed.

(** X22.  An empty result and a stale cell: the serializer succeeds, writes
    length 0 and returns no buffer; with the upper half of the cell at
    [xml_txt_len] not zero the length read back is positive, and
    [apply_style] passes the null buffer to [strncpy] as its source, which
    is undefined, whether [malloc] returns a block or not. *)
Theorem apply_style_empty_result_stale_cell
    w s d n p xml params t r ea e cell granted :
  heap w !! s = Some (OStyle d n p) ->
  strlen xml <= INT32_MAX ->
  last_error w = None ->
  parse_text E xml (strlen xml) = (Some t, None) ->
  transform_tree E p t params = (Some r, ea) ->
  serialize_tree E r p = (0, None, e) ->
  4294967296 <= cell ->
  apply_style_at cell granted (Some s) xml params w = None.
Proof.
  intros Hs Hlen Herr Hp Ht Hser Hcell. unfold apply_style_at.
  rewrite (proj2 (Z.ltb_ge _ _)) by done.
  rewrite to_int_strlen by done.
  step ltac:(eapply run_parse_some; eassumption).
  step ltac:(apply run_xmlGetLastError).
  rewrite Herr. cbn [register].
  step ltac:(eapply run_apply_some; [live | live | eassumption]).
  step ltac:(eapply run_save_none; [live | live | eassumption]).
  assert (0 < store_int_in_size_t cell 0) as Hpos.
  { unfold store_int_in_size_t. rewrite Z.mod_0_l by lia.
    assert (1 <= cell / 4294967296) by (apply Z.div_le_lower_bound; lia).
    lia. }
  rewrite (proj2 (Z.ltb_lt _ _)) by done.
  destruct granted; reflexivity.
Qed.

End Facts.

(** * Parameter arrays *)

Lemma int_checked_in_range z :
  INT32_MIN <= z <= INT32_MAX -> int_checked z = Some z.
Proof.
  intros H. unfold int_checked, int_range.
  rewrite (proj2 (Z.leb_le _ _)), (proj2 (Z.leb_le _ _)) by lia. done.
Qed.

Lemma array_store_in_bounds (a : list slot) i v :
  0 <= i < Z.of_nat (length a) ->
  array_store a i v = Some (<[Z.to_nat i := v]> a).
Proof.
  intros H. unfold array_store.
  rewrite (proj2 (Z.leb_le _ _)), (proj2 (Z.ltb_lt _ _)) by lia. done.
Qed.

Lemma make_param_array_fresh n :
  0 <= n < 1073741824 ->
  make_param_array true n = Some (replicate (Z.to_nat (2 * n + 1)) None).
Proof.
  intros H. unfold make_param_array, int_mul, int_add, INT32_MIN, INT32_MAX.
  rewrite int_checked_in_range by (unfold INT32_MIN, INT32_MAX; lia). cbn.
  rewrite int_checked_in_range by (unfold INT32_MIN, INT32_MAX; lia). cbn.
  unfold calloc. rewrite (proj2 (Z.leb_le _ _)) by lia. cbn.
  rewrite array_store_in_bounds by (rewrite length_replicate; lia).
  by rewrite insert_replicate.
Qed.

(** An array is returned only when [calloc] returned one and the count is in
    [[0, 2^30)]; it is then the array of [2 * n + 1] null slots. *)
Lemma make_param_array_returns granted n a :
  make_param_array granted n = Some a ->
  granted = true /\ 0 <= n < 1073741824
  /\ a = replicate (Z.to_nat (2 * n + 1)) None.
Proof.
  intros Ha.
  assert (granted = true /\ 0 <= n < 1073741824) as [-> Hn].
  { unfold make_param_array, int_mul, int_add, int_checked, int_range, calloc,
      array_store, INT32_MIN, INT32_MAX in Ha.
    destruct granted; [split; [done |] | exfalso];
      repeat (case_match; simplify_eq/=);
      repeat match goal with
      | H : _ && _ = true |- _ => apply andb_true_iff in H as [? ?]
      | H : (_ <=? _) = true |- _ => apply Z.leb_le in H
      | H : (_ <? _) = true |- _ => apply Z.ltb_lt in H
      end; lia. }
  rewrite make_param_array_fresh in Ha by done. by injection Ha as <-.
Qed.

(** One [set_param] in bounds stores the name and the value at [2 * t] and
    [2 * t + 1]. *)
Lemma set_param_in_bounds (a : list slot) nm v t n :
  length a = Z.to_nat (2 * n + 1) ->
  0 <= n < 1073741824 ->
  0 <= t < n ->
  set_param a nm v t
  = Some (<[Z.to_nat (2 * t + 1) := v]> (<[Z.to_nat (2 * t) := nm]> a)).
Proof.
  intros Hlen Hn Ht. unfold set_param, int_mul, int_add.
  rewrite int_checked_in_range by (unfold INT32_MIN, INT32_MAX; lia). cbn.
  rewrite array_store_in_bounds by lia. cbn.
  rewrite int_checked_in_range by (unfold INT32_MIN, INT32_MAX; lia). cbn.
  by rewrite array_store_in_bounds by (rewrite length_insert; lia).
Qed.


Lemma set_params_in_bounds n (l : list (Z * slot * slot)) :
  0 <= n < 1073741824 ->
  Forall (fun '(t, _, _) => 0 <= t < n) l ->
  forall a : list slot,
    length a = Z.to_nat (2 * n + 1) ->
    exists a',
      set_params a l = Some a'
      /\ length a' = Z.to_nat (2 * n + 1)
      /\ forall i, ~ touched l i -> a' !! i = a !! i.
Proof.
  intros Hn Hall. induction Hall as [| [[t nm] v] l Ht Hall IH]; intros a Hlen.
  - exists a. by repeat split.
  - cbn [set_params]. rewrite (set_param_in_bounds a nm v t n) by done. cbn.
    destruct (IH (<[Z.to_nat (2 * t + 1) := v]> (<[Z.to_nat (2 * t) := nm]> a)))
      as (a' & Heq & Hlen' & Hframe).
    { by rewrite !length_insert. }
    exists a'. split; [done |]. split; [done |].
    intros i Hi. rewrite Hframe.
    + rewrite !list_lookup_insert_ne; [done | |];
        intros <-; apply Hi; apply Exists_cons_hd; tauto.
    + intros Hl. apply Hi. by apply Exists_cons_tl.
Qed.

(** C10, as amended.  For [0 <= n < 2^30], and when [calloc] returns an
    array, [make_param_array n] returns [2 * n + 1] slots, all [NULL].  A [set_param] at an index in [[0, n)]
    changes no slot but [2 * t] and [2 * t + 1].  After any sequence of such
    calls the array still has [2 * n + 1] slots, slot [2 * n] is [NULL], and
    so is every slot no call stored to. *)
Theorem param_array_sentinel n (l : list (Z * slot * slot)) :
  0 <= n < 1073741824 ->
  Forall (fun '(t, _, _) => 0 <= t < n) l ->
  exists a a',
    make_param_array true n = Some a
    /\ length a = Z.to_nat (2 * n + 1)
    /\ (forall i, (i < length a)%nat -> a !! i = Some None)
    /\ (forall (b : list slot) nm v t,
          length b = Z.to_nat (2 * n + 1) -> 0 <= t < n ->
          exists b',
            set_param b nm v t = Some b'
            /\ forall i, i <> Z.to_nat (2 * t) -> i <> Z.to_nat (2 * t + 1) ->
                         b' !! i = b !! i)
    /\ set_params a l = Some a'
    /\ length a' = Z.to_nat (2 * n + 1)
    /\ a' !! Z.to_nat (2 * n) = Some None
    /\ (forall i, (i < length a')%nat -> ~ touched l i -> a' !! i = Some None).
Proof.
  intros Hn Hall.
  set (a := replicate (Z.to_nat (2 * n + 1)) (None : slot)).
  assert (length a = Z.to_nat (2 * n + 1)) as Hlen
    by apply length_replicate.
  assert (forall i, (i < length a)%nat -> a !! i = Some None) as Hnull.
  { intros i Hi. apply lookup_replicate_2. by rewrite Hlen in Hi. }
  destruct (set_params_in_bounds n l Hn Hall a Hlen)
    as (a' & Hset & Hlen' & Hframe).
  assert (~ touched l (Z.to_nat (2 * n))) as Hsentinel.
  { unfold touched. rewrite Exists_exists. intros ([[t nm] v] & Hin & Hi).
    rewrite Forall_forall in Hall. specialize (Hall _ Hin). cbn in Hall. lia. }
  exists a, a'. split; [by apply make_param_array_fresh |].
  split; [done |]. split; [done |]. split; [| split; [done |]].
  - intros b nm v t Hb Ht. eexists. split.
    + by eapply set_param_in_bounds.
    + intros i H0 H1. by rewrite !list_lookup_insert_ne.
  - split; [done |]. split.
    + rewrite Hframe by done. apply Hnull. lia.
    + intros i Hi Hnot. rewrite Hframe by done. apply Hnull. lia.
Qed.

(** * The claims at concrete inputs *)

Lemma strlen_replicate k b : 0 <= k -> strlen (replicate (Z.to_nat k) b) = k.
Proof. intros H. unfold strlen. rewrite length_replicate. lia. Qed.


Lemma strlen_text_over_limit : strlen text_over_limit = INT32_MAX + 1.
Proof. apply strlen_replicate. unfold INT32_MAX. lia. Qed.

(** C1.  On a stylesheet that compiles to a handle with [errors = 1],
    [make_style] returns -1 and has stored the handle through [style]; the
    stylesheet object is still allocated when it returns, and the document
    the stylesheet owns has been freed under it. *)
Theorem make_style_errors_keeps_handle :
  match make_style (E := errors_engine) sample_xml (empty_world errors_engine) with
  | Some (rc, stored, w') =>
      rc = -1
      /\ stored = Some (Some 2%positive)
      /\ heap w' !! 2%positive = Some (OStyle (E := errors_engine) 1%positive 1 tt)
      /\ heap w' !! 1%positive = None
  | None => False
  end.
Proof. vm_compute. repeat split. Qed.

(** C2.  On a text for which the parser returns a tree and registers an
    error, [apply_style] returns -1 and the tree the parser allocated (at
    address 3, free before the call) is still allocated when it returns. *)
Theorem apply_style_parse_error_keeps_tree :
  let w := compiled namespace_engine tt tt None in
  heap w !! 3%positive = None
  /\ match apply_style (Some 2%positive) sample_xml [] w with
     | Some (rc, out, w') =>
         rc = -1
         /\ out = no_output
         /\ heap w' !! 3%positive = Some (ODoc (E := namespace_engine) tt)
         /\ calls w' = [CallParse sample_xml 9; CallResetLastError]
     | None => False
     end.
Proof. vm_compute. repeat split. Qed.

(** C3.  When the serializer writes UTF-16, [apply_style] returns 0 with
    the length 10 of the serialized text, but the block it hands out holds
    the first three of the ten bytes followed by NULs. *)
Theorem apply_style_output_cut_at_nul :
  serialize_tree utf16_engine tt tt = (0, Some utf16_output, None)
  /\ match apply_style (Some 2%positive) sample_xml []
             (compiled utf16_engine tt tt None) with
     | Some (rc, out, w') =>
         rc = 0
         /\ out_len out = Some 10
         /\ output_bytes w' out
            = Some (Some <$> [xff; xfe; x3c; x00; x00; x00; x00; x00; x00; x00])
         /\ output_bytes w' out <> Some (Some <$> utf16_output)
     | None => False
     end.
Proof. vm_compute. repeat split. discriminate. Qed.

(** C7.  [make_style] returns with an error in the slot: when the text is
    over the length limit and an error was pending on entry, and when the
    slot was empty on entry and the compilation registered an error. *)
Theorem make_style_returns_with_pending_error :
  make_style (E := plain_engine) text_over_limit (World ∅ (Some 4) [])
  = Some (-1, None, World ∅ (Some 4) [])
  /\ match make_style (E := xpath_error_engine) sample_xml
             (empty_world xpath_error_engine) with
     | Some (rc, _, w') => rc = -1 /\ last_error w' = Some 1207
     | None => False
     end.
Proof.
  split.
  - unfold make_style.
    rewrite length_check_rejects; [reflexivity |].
    rewrite strlen_text_over_limit. lia.
  - vm_compute. by split.
Qed.

(** C4 at a concrete input: the serializer fails after writing two bytes. *)
Lemma apply_style_serialize_failure_witness :
  exists txt_len w',
    apply_style (Some 2%positive) sample_xml []
      (compiled save_failure_engine tt tt None)
    = Some (-1, Outputs None (Some txt_len), w')
    /\ extended (heap (compiled save_failure_engine tt tt None))
                (OXmlBuf <$> Some [x3c; x6f]) (heap w')
    /\ (forall l t',
          heap w' !! l = Some (ODoc t') ->
          heap (compiled save_failure_engine tt tt None) !! l = Some (ODoc t')).
Proof.
  apply (apply_style_serialize_failure (E := save_failure_engine)
           _ 2%positive 1%positive 0 tt sample_xml [] tt tt None
           (-1) (Some [x3c; x6f]) None);
    try reflexivity.
  - vm_compute. discriminate.
  - discriminate.
Defined.



(** C8.  Two calls with the same stylesheet, text and parameters do not
    return the same.  The slot is empty on entry; the transform registers an
    error on its way to a result; the first call returns 0 with the output
    and leaves the error in the slot; the second call finds it there after
    its own parse, returns -1 and hands out nothing. *)
Theorem apply_style_not_repeatable :
  last_error (compiled warning_engine tt tt None) = None
  /\ match apply_style (Some 2%positive) sample_xml []
             (compiled warning_engine tt tt None) with
     | Some (rc1, out1, w1) =>
         match apply_style (Some 2%positive) sample_xml [] w1 with
         | Some (rc2, out2, w2) =>
             rc1 = 0 /\ rc2 = -1
             /\ output_bytes w1 out1 = Some (Some <$> sample_output)
             /\ last_error w1 = Some 1549
             /\ out2 = no_output
             /\ output_bytes w2 out2 = None
         | None => False
         end
     | None => False
     end.
Proof. vm_compute. repeat split. Qed.

(** C10, the claim as stated fails: [2^30] is a non-negative [int], and
    for it [2 * num_tuples] is out of the range of [int], so that no array
    is returned even when [calloc] would return one; and at [2^30 - 1],
    where the arithmetic is in range, no array is returned when [calloc]
    returns [NULL], as it may for the [2^31 - 1] slots asked of it. *)
Lemma make_param_array_overflow :
  0 <= 1073741824 <= INT32_MAX
  /\ make_param_array true 1073741824 = None
  /\ make_param_array false 1073741823 = None.
Proof. split; [unfold INT32_MAX; lia | split; reflexivity]. Qed.

(** C10 as amended, at a concrete input: two tuples, both set. *)
Lemma param_array_sentinel_witness :
  exists a a',
    make_param_array true 2 = Some a
    /\ set_params a [(0, Some [x61], Some [x31]); (1, Some [x62], Some [x32])]
       = Some a'
    /\ length a' = 5%nat
    /\ a' !! 4%nat = Some None.
Proof.
  destruct (param_array_sentinel 2
              [(0, Some [x61], Some [x31]); (1, Some [x62], Some [x32])])
    as (a & a' & Hmake & _ & _ & _ & Hset & Hlen & Hsentinel & _).
  - lia.
  - repeat constructor; lia.
  - exists a, a'. repeat split; assumption.
Defined.

(** * Further properties of the parameter arrays *)

Ltac bool_to_Z :=
  repeat match goal with
  | H : _ && _ = true |- _ => apply andb_true_iff in H as [? ?]
  | H : (_ <=? _) = true |- _ => apply Z.leb_le in H
  | H : (_ <? _) = true |- _ => apply Z.ltb_lt in H
  end.

(** X14.  [make_param_array] returns an array exactly when [calloc] returns
    one and [0 <= n < 2^30]: after a [NULL] from [calloc], for a negative
    count and for a count whose double overflows it is undefined. *)
Theorem make_param_array_defined granted n :
  is_Some (make_param_array granted n)
  <-> granted = true /\ 0 <= n < 1073741824.
Proof.
  split.
  - intros [a Ha]. apply make_param_array_returns in Ha. tauto.
  - intros [-> Hn]. rewrite make_param_array_fresh by done. eauto.
Qed.

(** X15.  On an array of [2 * n + 1] slots, [set_param] is defined exactly for
    an index in [0 <= t < n]: index [n] would store the value past the end
    of the array (after storing the name over the sentinel). *)
Theorem set_param_defined (a : list slot) nm v t n :
  length a = Z.to_nat (2 * n + 1) ->
  0 <= n < 1073741824 ->
  is_Some (set_param a nm v t) <-> 0 <= t < n.
Proof.
  intros Hlen Hn. split.
  - intros [a' Ha]. unfold set_param, int_mul, int_add, int_checked,
      int_range, array_store, INT32_MIN, INT32_MAX in Ha.
    repeat (case_match; simplify_eq/=);
      bool_to_Z; rewrite ?length_insert in *; lia.
  - intros Ht. erewrite set_param_in_bounds by done. eauto.
Qed.

Lemma set_params_numbered (pairs : list (slot * slot)) :
  forall (i : Z) (done : list slot) n,
    0 <= i ->
    i + Z.of_nat (length pairs) = n ->
    n < 1073741824 ->
    length done = Z.to_nat (2 * i) ->
    set_params (done ++ replicate (Z.to_nat (2 * Z.of_nat (length pairs) + 1)) None)
               (numbered i pairs)
    = Some (done ++ flattened pairs).
Proof.
  induction pairs as [| [nm v] pairs IH]; intros i done n Hi Hn Hlt Hdone.
  - reflexivity.
  - cbn [numbered set_params length] in *.
    replace (Z.to_nat (2 * Z.of_nat (S (length pairs)) + 1))
      with (S (S (Z.to_nat (2 * Z.of_nat (length pairs) + 1)))) by lia.
    cbn [replicate].
    rewrite (set_param_in_bounds _ nm v i n).
    2: { rewrite length_app. cbn [length]. rewrite length_replicate. lia. }
    2, 3: lia.
    cbn.
    replace (Z.to_nat (2 * i)) with (length done + 0)%nat by lia.
    replace (Z.to_nat (2 * i + 1)) with (length done + 1)%nat by lia.
    rewrite insert_app_r. cbn [insert list_insert].
    rewrite insert_app_r. cbn [insert list_insert].
    set (rest := replicate _ _).
    replace (done ++ nm :: v :: rest) with ((done ++ [nm; v]) ++ rest)
      by (by rewrite <- app_assoc).
    unfold rest.
    rewrite (IH (i + 1) (done ++ [nm; v]) n) by
      (rewrite ?length_app; cbn [length]; lia).
    unfold flattened. cbn [flat_map]. by rewrite <- !app_assoc.
Qed.

Lemma flattened_length (pairs : list (slot * slot)) :
  length (flattened pairs) = (2 * length pairs + 1)%nat.
Proof.
  unfold flattened. rewrite length_app. cbn [length].
  induction pairs as [| [nm v] pairs IH]; cbn [flat_map length app] in *; lia.
Qed.

(** X16.  When [make_param_array] returns an array for as many tuples as
    there are pairs, filling it with the pairs in order gives the names and
    values one after the other, followed by the [NULL] sentinel: the array
    the transform reads. *)
Theorem param_array_filled granted (pairs : list (slot * slot)) a :
  make_param_array granted (Z.of_nat (length pairs)) = Some a ->
  set_params a (numbered 0 pairs) = Some (flattened pairs)
  /\ length (flattened pairs) = (2 * length pairs + 1)%nat.
Proof.
  intros Ha. apply make_param_array_returns in Ha as (_ & Hlt & ->).
  split.
  - apply (set_params_numbered pairs 0 [] (Z.of_nat (length pairs)));
      [lia | lia | lia | done].
  - apply flattened_length.
Qed.

(** * Freeing a parameter array *)

Lemma read_slot_in (m : gmap loc block) a slots i x :
  m !! a = Some (BArray slots) ->
  slots !! i = Some x ->
  read_slot (Some a) (Z.of_nat i) m = Some x.
Proof.
  intros Ha Hx. unfold read_slot. rewrite Ha.
  rewrite (proj2 (Z.leb_le _ _)) by lia. by rewrite Nat2Z.id.
Qed.

Lemma free_subseteq p (m m' : gmap loc block) : free p m = Some m' -> m' ⊆ m.
Proof.
  destruct p as [l |]; cbn; [| by intros [= ->]].
  destruct (m !! l); [| done]. intros [= <-]. apply delete_subseteq.
Qed.

(** The loop frees what the slots it visits point to, and nothing else,
    when those pointers are live, pairwise different and not the array. *)
Lemma free_slots_releases a slots :
  forall count i (m : gmap loc block),
    m !! a = Some (BArray slots) ->
    (i + count <= length slots)%nat ->
    NoDup (omap id (take count (drop i slots))) ->
    a ∉ omap id (take count (drop i slots)) ->
    (forall l, l ∈ omap id (take count (drop i slots)) -> is_Some (m !! l)) ->
    exists m',
      free_slots (Some a) (Z.of_nat i) count m = Some m'
      /\ forall l,
           m' !! l
           = if decide (l ∈ omap id (take count (drop i slots)))
             then None else m !! l.
Proof.
  induction count as [| count IH]; intros i m Ha Hlen Hnodup Hnota Hlive.
  { exists m. split; [done |]. intros l. rewrite take_0. cbn.
    case_decide as Hin; [by apply elem_of_nil in Hin | done]. }
  destruct (lookup_lt_is_Some_2 slots i) as [x Hx]; [lia |].
  rewrite (drop_S _ _ _ Hx) in *. cbn [take omap] in *.
  cbn [free_slots]. rewrite (read_slot_in m a slots i x) by done. cbn.
  replace (Z.of_nat i + 1) with (Z.of_nat (S i)) by lia.
  destruct x as [l0 |]; cbn [id free] in *.
  - apply NoDup_cons in Hnodup as [Hfresh Hnodup].
    apply not_elem_of_cons in Hnota as [Hne Hnota].
    destruct (Hlive l0) as [b Hb]; [apply elem_of_cons; by left |].
    rewrite Hb. cbn.
    destruct (IH (S i) (delete l0 m)) as (m' & Hrun & Hm'); try done.
    + by rewrite lookup_delete_ne.
    + lia.
    + intros l Hl. rewrite lookup_delete_ne by (intros ->; done).
      apply Hlive, elem_of_cons. by right.
    + exists m'. split; [done |]. intros l. rewrite Hm'.
      destruct (decide (l = l0)) as [-> | Hl].
      * rewrite lookup_delete_eq.
        rewrite (decide_True (P := l0 ∈ l0 :: _)) by (apply elem_of_cons; by left).
        by case_decide.
      * rewrite lookup_delete_ne by done.
        apply decide_ext. rewrite elem_of_cons. tauto.
  - destruct (IH (S i) m) as (m' & Hrun & Hm'); try done. lia.
    exists m'. by split.
Qed.

(** X17.  [free_param_array] frees the array and every string its first
    [2 * n] slots point to, and leaves the rest of the memory as it was,
    when those strings are live, no pointer occurs twice and none is the
    array itself.  The sentinel slot is not read. *)
Theorem free_param_array_releases (m : gmap loc block) a slots n :
  0 <= n < 1073741824 ->
  m !! a = Some (BArray slots) ->
  length slots = Z.to_nat (2 * n + 1) ->
  NoDup (pointers (Z.to_nat (2 * n)) slots) ->
  a ∉ pointers (Z.to_nat (2 * n)) slots ->
  (forall l, l ∈ pointers (Z.to_nat (2 * n)) slots -> is_Some (m !! l)) ->
  exists m',
    free_param_array (Some a) n m = Some m'
    /\ forall l,
         m' !! l
         = if decide (l = a \/ l ∈ pointers (Z.to_nat (2 * n)) slots)
           then None else m !! l.
Proof.
  intros Hn Ha Hlen Hnodup Hnota Hlive. unfold pointers in *.
  unfold free_param_array, int_mul.
  rewrite int_checked_in_range by (unfold INT32_MIN, INT32_MAX; lia). cbn.
  destruct (free_slots_releases a slots (Z.to_nat (2 * n)) 0 m)
    as (m' & Hrun & Hm'); try done; [lia |].
  rewrite drop_0 in Hm'. change (Z.of_nat 0) with 0 in Hrun.
  rewrite Hrun. cbn.
  assert (m' !! a = Some (BArray slots)) as Ha'.
  { rewrite Hm'. by case_decide. }
  rewrite Ha'. eexists. split; [done |].
  intros l. destruct (decide (l = a)) as [-> | Hl].
  - rewrite lookup_delete_eq. case_decide; [done | tauto].
  - rewrite lookup_delete_ne, Hm' by done.
    repeat case_decide; done || tauto.
Qed.

Lemma free_slots_all_null a k :
  forall count i (m : gmap loc block),
    m !! a = Some (BArray (replicate k None)) ->
    (i + count <= k)%nat ->
    free_slots (Some a) (Z.of_nat i) count m = Some m.
Proof.
  induction count as [| count IH]; intros i m Ha Hle; [done |].
  cbn [free_slots].
  rewrite (read_slot_in m a _ i None Ha)
    by (apply lookup_replicate_2; lia).
  cbn. replace (Z.of_nat i + 1) with (Z.of_nat (S i)) by lia.
  apply IH; [done | lia].
Qed.

(** X18.  An array whose slots are all [NULL], as [make_param_array] returns
    it, is freed alone: the memory is as before but for the array. *)
Theorem free_param_array_fresh (m : gmap loc block) a n :
  0 <= n < 1073741824 ->
  m !! a = Some (BArray (replicate (Z.to_nat (2 * n + 1)) None)) ->
  free_param_array (Some a) n m = Some (delete a m).
Proof.
  intros Hn Ha.
  unfold free_param_array, int_mul.
  rewrite int_checked_in_range by (unfold INT32_MIN, INT32_MAX; lia). cbn.
  change 0 with (Z.of_nat 0).
  rewrite (free_slots_all_null a _ _ 0%nat m Ha) by lia.
  cbn. by rewrite Ha.
Qed.

(** Once a pointer is dead, a loop that reaches a slot holding it is
    undefined. *)
Lemma free_slots_dead (m0 : gmap loc block) a slots p j :
  m0 !! a = Some (BArray slots) ->
  slots !! j = Some (Some p) ->
  forall count i (m : gmap loc block),
    m ⊆ m0 ->
    m !! p = None ->
    (i <= j < i + count)%nat ->
    free_slots (Some a) (Z.of_nat i) count m = None.
Proof.
  intros Ha0 Hj. induction count as [| count IH]; intros i m Hsub Hp Hrange.
  { lia. }
  cbn [free_slots]. unfold read_slot.
  destruct (m !! a) as [b |] eqn:Ha; [| done].
  rewrite (lookup_weaken _ _ _ _ Ha Hsub) in Ha0. injection Ha0 as ->.
  rewrite (proj2 (Z.leb_le _ _)) by lia. rewrite Nat2Z.id.
  destruct (slots !! i) as [x |] eqn:Hx; [| done]. cbn.
  destruct (decide (i = j)) as [Heq | Hne].
  - rewrite Heq in Hx.
    pose proof (eq_trans (eq_sym Hx) Hj) as Hxp. injection Hxp as ->.
    cbn. by rewrite Hp.
  - destruct (free x m) as [m1 |] eqn:Hfree; [| done]. cbn.
    replace (Z.of_nat i + 1) with (Z.of_nat (S i)) by lia.
    pose proof (free_subseteq _ _ _ Hfree) as Hsub1.
    apply IH; [by etrans | by eapply lookup_weaken_None | lia].
Qed.

Lemma free_slots_twice (m0 : gmap loc block) a slots p j1 j2 :
  m0 !! a = Some (BArray slots) ->
  slots !! j1 = Some (Some p) ->
  slots !! j2 = Some (Some p) ->
  forall count i (m : gmap loc block),
    m ⊆ m0 ->
    (i <= j1 < j2)%nat ->
    (j2 < i + count)%nat ->
    free_slots (Some a) (Z.of_nat i) count m = None.
Proof.
  intros Ha0 Hj1 Hj2.
  induction count as [| count IH]; intros i m Hsub Hrange Hlt.
  { lia. }
  cbn [free_slots]. unfold read_slot.
  destruct (m !! a) as [b |] eqn:Ha; [| done].
  pose proof (lookup_weaken _ _ _ _ Ha Hsub) as Ha'.
  rewrite Ha0 in Ha'. injection Ha' as <-.
  rewrite (proj2 (Z.leb_le _ _)) by lia. rewrite Nat2Z.id.
  destruct (slots !! i) as [x |] eqn:Hx; [| done]. cbn.
  destruct (free x m) as [m1 |] eqn:Hfree; [| done]. cbn.
  replace (Z.of_nat i + 1) with (Z.of_nat (S i)) by lia.
  pose proof (free_subseteq _ _ _ Hfree) as Hsub1.
  destruct (decide (i = j1)) as [Heq | Hne].
  - rewrite Heq in Hx.
    pose proof (eq_trans (eq_sym Hx) Hj1) as Hxp. injection Hxp as ->.
    cbn in Hfree.
    destruct (m !! p); [| done]. injection Hfree as <-.
    apply (free_slots_dead m0 a slots p j2 Ha0 Hj2 count (S i) (delete p m));
      [by etrans | apply lookup_delete_eq | lia].
  - apply IH; [by etrans | lia | lia].
Qed.

(** X19.  [set_param] does not copy the strings, and [free_param_array] frees
    every slot: when two of the first [2 * n] slots hold the same pointer,
    the second free of it is undefined. *)
Theorem free_param_array_double_free
    (m : gmap loc block) a slots n i j p :
  0 <= n < 1073741824 ->
  m !! a = Some (BArray slots) ->
  (i < j < Z.to_nat (2 * n))%nat ->
  slots !! i = Some (Some p) ->
  slots !! j = Some (Some p) ->
  free_param_array (Some a) n m = None.
Proof.
  intros Hn Ha Hij Hi Hj.
  unfold free_param_array, int_mul.
  rewrite int_checked_in_range by (unfold INT32_MIN, INT32_MAX; lia). cbn.
  change 0 with (Z.of_nat 0).
  by rewrite (free_slots_twice m a slots p i j Ha Hi Hj) by (done || lia).
Qed.

(** * The further properties at concrete inputs *)

Lemma int_lengths_scripted p c a status bs e :
  strlen bs <= INT32_MAX ->
  int_lengths (scripted p c a (status, Some bs, e)).
Proof. intros H t q status' bs' e' [= _ <- _]. exact H. Qed.

Lemma int_lengths_checking_engine : int_lengths checking_engine.
Proof. intros t q status bs e [= _ <- _]. vm_compute. discriminate. Qed.

Lemma strlen_sample_output : strlen sample_output <= INT32_MAX.
Proof. vm_compute. discriminate. Qed.

Lemma strlen_utf16_output : strlen utf16_output <= INT32_MAX.
Proof. vm_compute. discriminate. Qed.

(** X2 at a concrete input. *)
Lemma make_style_free_style_witness :
  exists s w1 w2,
    make_style sample_xml (empty_world plain_engine)
    = Some (0, Some (Some s), w1)
    /\ heap (empty_world plain_engine) !! s = None
    /\ free_style (Some s) w1 = Some (tt, w2)
    /\ heap w2 = heap (empty_world plain_engine)
    /\ last_error w2 = None.
Proof.
  apply (make_style_free_style (E := plain_engine)
           (empty_world plain_engine) sample_xml tt tt None);
    [vm_compute; discriminate | reflexivity ..].
Defined.

(** X3 at a concrete input. *)
Lemma make_style_failure_frees_document_witness :
  exists stored w',
    make_style sample_xml (empty_world no_program_engine)
    = Some (-1, stored, w')
    /\ heap w' = heap (empty_world no_program_engine)
    /\ (stored = None \/ stored = Some None).
Proof.
  apply (make_style_failure_frees_document (E := no_program_engine)
           (empty_world no_program_engine) sample_xml).
  - vm_compute. discriminate.
  - right. exists tt, None. by repeat split.
Defined.

(** X4 at a concrete input. *)
Lemma make_style_errors_handle_unusable_witness :
  exists s w',
    make_style sample_xml (empty_world errors_engine)
    = Some (-1, Some (Some s), w')
    /\ free_style (Some s) w' = None.
Proof.
  apply (make_style_errors_handle_unusable (E := errors_engine)
           (empty_world errors_engine) sample_xml tt tt 1 None);
    [vm_compute; discriminate | reflexivity | reflexivity | reflexivity
    | discriminate].
Defined.

(** X5 at a concrete input. *)
Lemma apply_style_no_result_witness :
  exists w',
    apply_style (Some 2%positive) sample_xml []
      (compiled no_result_engine tt tt None)
    = Some (-1, no_output, w')
    /\ heap w' = heap (compiled no_result_engine tt tt None)
    /\ last_error w' = None.
Proof.
  apply (apply_style_no_result (E := no_result_engine)
           _ 2%positive 1%positive 0 tt sample_xml [] tt None);
    [reflexivity | vm_compute; discriminate | reflexivity ..].
Defined.

(** X6 at a concrete input. *)
Lemma apply_style_frame_witness :
  exists rc out w',
    apply_style_at 0 true (Some 2%positive) sample_xml []
      (compiled plain_engine tt tt None)
    = Some (rc, out, w')
    /\ (forall l o,
          heap (compiled plain_engine tt tt None) !! l = Some o ->
          heap w' !! l = Some o)
    /\ (exists rc2 out2 w2,
          apply_style_at 13 true (Some 2%positive) sample_xml [] w'
          = Some (rc2, out2, w2))
    /\ (exists w3, free_style (Some 2%positive) w' = Some (tt, w3)).
Proof.
  apply (apply_style_frame (E := plain_engine)
           _ 2%positive 1%positive 0 tt tt);
    [reflexivity | reflexivity
     | apply int_lengths_scripted, strlen_sample_output | lia | lia].
Defined.

(** X7 at a concrete input. *)
Lemma xslt_failure_keeps_xml_txt_witness :
  exists rc out w',
    xslt_at 0 true sample_xml sample_xml [] (empty_world errors_engine)
    = Some (rc, out, w')
    /\ (rc <> 0 -> out_txt out = None).
Proof.
  apply (xslt_failure_keeps_xml_txt (E := errors_engine));
    [apply int_lengths_scripted, strlen_sample_output | lia].
Defined.

(** X8 at a concrete input. *)
Lemma xslt_leaves_only_output_witness :
  exists l w',
    xslt_at 0 true sample_xml sample_xml [] (empty_world plain_engine)
    = Some (0, Outputs (Some (Some l)) (Some (strlen sample_output)), w')
    /\ heap (empty_world plain_engine) !! l = None
    /\ heap w'
       = <[l := OBuf (Some <$> strncpy_bytes sample_output
                                 (length sample_output))]>
           (heap (empty_world plain_engine)).
Proof.
  apply (xslt_leaves_only_output (E := plain_engine)
           (empty_world plain_engine) sample_xml sample_xml []
           tt tt tt tt None sample_output None 0);
    [apply int_lengths_scripted, strlen_sample_output | lia | ..];
    try reflexivity; vm_compute; discriminate.
Defined.

(** X9 at a concrete input. *)
Lemma xslt_fails_after_compile_message_witness :
  exists w',
    xslt sample_xml sample_xml [] (empty_world message_engine)
    = Some (-1, no_output, w').
Proof.
  apply (xslt_fails_after_compile_message (E := message_engine)
           (empty_world message_engine) sample_xml sample_xml []
           tt tt 1207);
    [vm_compute; discriminate | reflexivity ..].
Defined.

(** X10 at a concrete input. *)
Lemma apply_style_output_block_witness :
  exists outs w' blk,
    apply_style_at 0 true (Some 2%positive) sample_xml []
      (compiled utf16_engine tt tt None)
    = Some (0, outs, w')
    /\ out_len outs = Some (strlen utf16_output)
    /\ output_bytes w' outs = Some (Some <$> blk)
    /\ strlen blk = strlen utf16_output
    /\ blk = until_nul utf16_output
             ++ replicate (length utf16_output
                           - length (until_nul utf16_output)) x00
    /\ until_nul utf16_output `prefix_of` utf16_output
    /\ x00 ∉ until_nul utf16_output.
Proof.
  apply (apply_style_output_block (E := utf16_engine)
           _ 2%positive 1%positive 0 tt sample_xml [] tt tt None
           utf16_output None 0);
    [apply int_lengths_scripted, strlen_utf16_output | lia | ..];
    try reflexivity; vm_compute; discriminate.
Defined.


(** X15 at a concrete input. *)
Lemma set_param_defined_witness :
  is_Some (set_param [None; None; None; None; None]
             (Some [x61]) (Some [x31]) 1)
  /\ ~ is_Some (set_param [None; None; None; None; None]
                  (Some [x61]) (Some [x31]) 2).
Proof.
  split.
  - apply (set_param_defined _ _ _ 1 2); [reflexivity | lia | lia].
  - intros H.
    apply (set_param_defined _ _ _ 2 2) in H; [lia | reflexivity | lia].
Defined.

(** X16 at a concrete input. *)
Lemma param_array_filled_witness :
  exists a,
    make_param_array true 2 = Some a
    /\ set_params a (numbered 0 [(Some [x61], Some [x31]);
                                 (Some [x62], Some [x32])])
       = Some [Some [x61]; Some [x31]; Some [x62]; Some [x32]; None]
    /\ length [Some [x61]; Some [x31]; Some [x62]; Some [x32]; @None cstring]
       = 5%nat.
Proof.
  exists [None; None; None; None; None]. split; [reflexivity |].
  apply (param_array_filled true [(Some [x61], Some [x31]);
                                  (Some [x62], Some [x32])]).
  reflexivity.
Defined.

(** X17 at a concrete input. *)
Lemma free_param_array_releases_witness :
  exists m',
    free_param_array (Some 1%positive) 1 sample_memory = Some m'
    /\ forall l,
         m' !! l
         = if decide (l = 1%positive
                      \/ l ∈ pointers 2 [Some 2%positive; Some 3%positive; None])
           then None else sample_memory !! l.
Proof.
  apply (free_param_array_releases sample_memory 1%positive
           [Some 2%positive; Some 3%positive; None] 1).
  - lia.
  - reflexivity.
  - reflexivity.
  - apply (bool_decide_unpack _). vm_compute. exact I.
  - apply (bool_decide_unpack _). vm_compute. exact I.
  - intros l Hl. change (l ∈ [2%positive; 3%positive]) in Hl.
    apply elem_of_cons in Hl as [-> | Hl];
      [exists (BString [x61]); reflexivity |].
    apply list_elem_of_singleton in Hl as ->.
    exists (BString [x31]). reflexivity.
Defined.

(** X18 at a concrete input. *)
Lemma free_param_array_fresh_witness :
  free_param_array (Some 1%positive) 1
    (<[1%positive := BArray [None; None; None]]> sample_memory)
  = Some (delete 1%positive
            (<[1%positive := BArray [None; None; None]]> sample_memory)).
Proof.
  apply (free_param_array_fresh _ 1%positive 1); [lia | reflexivity].
Defined.

(** X19 at a concrete input. *)
Lemma free_param_array_double_free_witness :
  free_param_array (Some 1%positive) 1 aliased_memory = None.
Proof.
  apply (free_param_array_double_free aliased_memory 1%positive
           [Some 2%positive; Some 2%positive; None] 1 0 1 2%positive);
    [lia | reflexivity | vm_compute; lia | reflexivity | reflexivity].
Defined.

(** X12 at a concrete input. *)
Lemma apply_style_parse_null_witness :
  exists w',
    apply_style (Some 2%positive) [] []
      (compiled checking_engine tt tt (Some 201))
    = Some (-1, no_output, w')
    /\ heap w' = heap (compiled checking_engine tt tt (Some 201))
    /\ last_error w' = None.
Proof.
  apply (apply_style_parse_null (E := checking_engine)
           _ 2%positive 1%positive 0 tt [] [] (Some 4));
    [reflexivity | vm_compute; discriminate | reflexivity].
Defined.

(** X13 at a concrete input. *)
Lemma apply_style_recovers_witness :
  exists w1 l w2,
    apply_style_at 4294967296 false (Some 2%positive) [] []
      (compiled checking_engine tt tt (Some 201))
    = Some (-1, no_output, w1)
    /\ apply_style_at 0 true (Some 2%positive) sample_xml [] w1
       = Some (0, Outputs (Some (Some l)) (Some (strlen sample_output)), w2)
    /\ heap w2
       = <[l := OBuf (Some <$> strncpy_bytes sample_output
                                 (length sample_output))]>
           (heap (compiled checking_engine tt tt (Some 201))).
Proof.
  apply (apply_style_recovers (E := checking_engine)
           _ 2%positive 1%positive 0 tt [] sample_xml []
           (Some 4) tt tt None sample_output None 4294967296 0 false);
    [apply int_lengths_checking_engine | lia | ..];
    try reflexivity; vm_compute; discriminate.
Defined.

(** X20 at a concrete input. *)
Lemma apply_style_malloc_null_witness :
  apply_style_at 0 false (Some 2%positive) sample_xml []
    (compiled plain_engine tt tt None)
  = None.
Proof.
  apply (apply_style_malloc_null (E := plain_engine)
           _ 2%positive 1%positive 0 tt sample_xml [] tt tt None
           sample_output None 0);
    [reflexivity | vm_compute; discriminate | reflexivity | reflexivity
     | reflexivity | reflexivity
     | split; [reflexivity | apply strlen_sample_output] | lia].
Defined.

(** X21 at a concrete input: the upper half of the cell holds 1, the text
    has 13 bytes, the length handed out is [2^32 + 13]. *)
Lemma apply_style_stale_cell_witness :
  exists l w',
    apply_style_at 4294967296 true (Some 2%positive) sample_xml []
      (compiled plain_engine tt tt None)
    = Some (0, Outputs (Some (Some l))
                       (Some (4294967296 / 4294967296 * 4294967296
                              + strlen sample_output)),
            w')
    /\ heap (compiled plain_engine tt tt None) !! l = None
    /\ heap w'
       = <[l := OBuf (Some <$>
                        (until_nul sample_output
                         ++ replicate
                              (Z.to_nat (4294967296 / 4294967296 * 4294967296
                                         + strlen sample_output)
                               - length (until_nul sample_output)) x00))]>
           (heap (compiled plain_engine tt tt None)).
Proof.
  apply (apply_style_stale_cell (E := plain_engine)
           _ 2%positive 1%positive 0 tt sample_xml [] tt tt None
           sample_output None 4294967296);
    [reflexivity | vm_compute; discriminate | reflexivity | reflexivity
     | reflexivity | reflexivity | apply strlen_sample_output | lia
     | reflexivity].
Defined.

(** X22 at a concrete input. *)
Lemma apply_style_empty_result_stale_cell_witness :
  apply_style_at 4294967296 true (Some 2%positive) sample_xml []
    (compiled empty_result_engine tt tt None)
  = None.
Proof.
  apply (apply_style_empty_result_stale_cell (E := empty_result_engine)
           _ 2%positive 1%positive 0 tt sample_xml [] tt tt None None
           4294967296 true);
    [reflexivity | vm_compute; discriminate | reflexivity | reflexivity
     | reflexivity | reflexivity | lia].
Defined.
